(** * SmartLibrarySystem: the lending ledger, the login machine, the scanner,
      the text wrapping and the payment code

    A shallow embedding of [code.py].  The module globals of the script
    ([users_db], [books_db], [borrowings], the session variables of the main
    loop) become explicit records that every function takes and returns.
    Python integers are [Z]; a [time.struct_time] is represented by the
    number of seconds [time.mktime] gives for it; a Python [str] is the
    byte string of its UTF-8 encoding, which is how CircuitPython stores it. *)

From stdpp Require Import base gmap list strings fin_maps.
From Stdlib Require Import ZArith String Ascii DecimalString DecimalZ.

Local Open Scope string_scope.
Local Open Scope Z_scope.
Local Open Scope list_scope.

(** ** 1. The database *)

Record user := User { name : string; role : string; password : string }.

Record book := Book { title : string; total : Z; available : Z }.

(** One entry of a user's list in [borrowings]: the dict
    [{"isbn": isbn, "issue_time": issue_time}]. *)
Record borrowing := Borrowing { isbn : string; issue_time : Z }.

#[global] Instance borrowing_eq_dec : EqDecision borrowing.
Proof. solve_decision. Defined.

Record ledger := Ledger {
  users_db : gmap string user;
  books_db : gmap string book;
  borrowings : gmap string (list borrowing)
}.

Definition initial_users_db : gmap string user :=
  <["01" := User "Amit Sharma" "Student" "1234"]>
  (<["02" := User "Priya Verma" "Student" "5678"]> ∅).

Definition initial_books_db : gmap string book :=
  <["978-1" := Book "Python Basics" 5 5]>
  (<["978-2" := Book "Adv. Circuits" 3 3]>
  (<["978-3" := Book "Data Science" 4 2]>
  (<["978-4" := Book "ESP32 Guide" 6 6]>
  (<["978-5" := Book "Calculus II" 2 1]> ∅)))).

(** [book_keys = list(books_db.keys())], in insertion order. *)
Definition book_keys : list string :=
  ["978-1"; "978-2"; "978-3"; "978-4"; "978-5"].

Definition initial_ledger : ledger :=
  Ledger initial_users_db initial_books_db ∅.

(** ** 2. Logic functions *)

(** The testing configuration: [test_delay_seconds = 17 * 86400]. *)
Definition test_delay_seconds : Z := 17 * 86400.

(** [calculate_days].  [now_time] is the module global read by the
    function, given here as [mktime(now_time)]. *)
Definition calculate_days (now_time issue_time : Z) : Z :=
  let issue_sec := issue_time in
  let now_sec := now_time + test_delay_seconds in
  (now_sec - issue_sec) / 86400.

(** The second component of the tuples the two ledger functions return.
    The source builds a display text; the model keeps the values the text
    is formatted from. *)
Inductive message :=
  | UserIdNotFound                                  (* "User ID Not Found" *)
  | BookNotFound                                    (* "Book Not Found" *)
  | Issued (title : string) (due_time : Z) (rem_copies : Z)
      (* "Issued: ..\nReturn by: ..\nRem Copies: .." *)
  | NoCopiesLeft                                    (* "No copies left\nfor this book." *)
  | ReturnedBook (title : string) (fine : Z) (now_available : Z)
      (* "Book: ..\nFine: .. Rs" or "No Fine", "\nNow Available: .." *)
  | DontHaveThisBook                                (* "You don't have\nthis book." *)
  | NoBorrowings.                                   (* "No borrowings." *)

(** The returned triple [(header, body, fine)]. *)
Definition result : Type := string * message * Z.

Definition set_available (b : book) (n : Z) : book :=
  Book (title b) (total b) n.

Definition issue_book_logic (now_time : Z) (L : ledger) (user_id isbn : string)
  : ledger * result :=
  match users_db L !! user_id with
  | None => (L, ("ERROR", UserIdNotFound, 0))
  | Some _ =>
    match books_db L !! isbn with
    | None => (L, ("ERROR", BookNotFound, 0))
    | Some book =>
      if 0 <? available book then
        let book' := set_available book (available book - 1) in
        let held := default [] (borrowings L !! user_id) in
        let issue_time := now_time in
        let held' := (held ++ [Borrowing isbn issue_time])%list in
        let due_time := issue_time + 15 * 86400 in
        (Ledger (users_db L) (<[isbn := book']> (books_db L))
                (<[user_id := held']> (borrowings L)),
         ("SUCCESS!", Issued (title book') due_time (available book'), 0))
      else (L, ("OOPS!", NoCopiesLeft, 0))
    end
  end.

(** The [for borrowing in borrowings[user_id]] loop with its test
    [borrowing["isbn"] == isbn]: the first entry for [isbn], if any. *)
Fixpoint find_isbn (isbn0 : string) (l : list borrowing) : option borrowing :=
  match l with
  | [] => None
  | x :: l' => if decide (isbn x = isbn0) then Some x else find_isbn isbn0 l'
  end.

(** Python's [list.remove(x)]: drops the first element equal to [x].  (On a
    list without [x] Python raises; the source only removes an element it
    has just read from the list.) *)
Fixpoint remove (x : borrowing) (l : list borrowing) : list borrowing :=
  match l with
  | [] => []
  | y :: l' => if decide (y = x) then l' else y :: remove x l'
  end.

Definition return_book_logic (now_time : Z) (L : ledger) (user_id isbn : string)
  : ledger * result :=
  match books_db L !! isbn with
  | None => (L, ("ERROR", BookNotFound, 0))
  | Some book =>
    match borrowings L !! user_id with
    | Some held =>
      match find_isbn isbn held with
      | Some borrowing =>
        let days := calculate_days now_time (issue_time borrowing) in
        let delay := days - 15 in
        let fine := Z.max 0 delay * 15 in
        let book' := set_available book (available book + 1) in
        let held' := remove borrowing held in
        let borrowings' :=
          match held' with
          | [] => delete user_id (borrowings L)
          | _ :: _ => <[user_id := held']> (borrowings L)
          end in
        (Ledger (users_db L) (<[isbn := book']> (books_db L)) borrowings',
         ("RETURNED", ReturnedBook (title book') fine (available book'), fine))
      | None => (L, ("ERROR", DontHaveThisBook, 0))
      end
    | None => (L, ("ERROR", NoBorrowings, 0))
    end
  end.

(** *** Sequences of ledger operations *)

Inductive op :=
  | Issue (now_time : Z) (user_id isbn : string)
  | Return (now_time : Z) (user_id isbn : string).

Definition apply_op (L : ledger) (o : op) : ledger * result :=
  match o with
  | Issue now u b => issue_book_logic now L u b
  | Return now u b => return_book_logic now L u b
  end.

Definition step (L : ledger) (o : op) : ledger := fst (apply_op L o).

Definition run (L : ledger) (ops : list op) : ledger := foldl step L ops.

(** ** 3. Scanned payloads *)

(** A [bytes] object is the string of its bytes. *)
Definition byte_val (c : ascii) : Z := Z.of_nat (nat_of_ascii c).

Definition in_range (lo hi b : Z) : bool := (lo <=? b) && (b <=? hi).

Definition is_cont (c : ascii) : bool := in_range 128 191 (byte_val c).

(** Well-formed UTF-8 byte sequences (one to four bytes per code point, no
    overlong forms, no surrogates, nothing above U+10FFFF): the inputs on
    which the builtin [payload.decode("utf-8")] returns instead of raising. *)
Fixpoint utf8_valid (s : string) : bool :=
  match s with
  | EmptyString => true
  | String c0 s0 =>
    let b0 := byte_val c0 in
    if b0 <=? 127 then utf8_valid s0
    else
      match s0 with
      | EmptyString => false
      | String c1 s1 =>
        let b1 := byte_val c1 in
        if in_range 194 223 b0 then is_cont c1 && utf8_valid s1
        else
          match s1 with
          | EmptyString => false
          | String c2 s2 =>
            if in_range 224 239 b0 then
              (if b0 =? 224 then in_range 160 191 b1
               else if b0 =? 237 then in_range 128 159 b1
               else is_cont c1)
              && is_cont c2 && utf8_valid s2
            else
              match s2 with
              | EmptyString => false
              | String c3 s3 =>
                in_range 240 244 b0
                && (if b0 =? 240 then in_range 144 191 b1
                    else if b0 =? 244 then in_range 128 143 b1
                    else is_cont c1)
                && is_cont c2 && is_cont c3 && utf8_valid s3
              end
          end
      end
  end.

(** [payload.decode("utf-8")]: [None] stands for the raised error. *)
Definition bytes_decode_utf8 (payload : string) : option string :=
  if utf8_valid payload then Some payload else None.

Definition squote : ascii := ascii_of_nat 39.
Definition dquote : ascii := ascii_of_nat 34.
Definition backslash : ascii := ascii_of_nat 92.

Definition hex_digit (n : Z) : ascii :=
  if n <? 10 then ascii_of_nat (Z.to_nat (48 + n))
  else ascii_of_nat (Z.to_nat (87 + n)).

Fixpoint contains (q : ascii) (s : string) : bool :=
  match s with
  | EmptyString => false
  | String c s' => if decide (c = q) then true else contains q s'
  end.

(** One byte of the text between the quotes of a bytes literal. *)
Definition escape_byte (quote c : ascii) : string :=
  let b := byte_val c in
  if decide (c = quote) then String backslash (String c EmptyString)
  else if decide (c = backslash) then String backslash (String backslash EmptyString)
  else if in_range 32 126 b then String c EmptyString
  else if b =? 10 then String backslash "n"
  else if b =? 13 then String backslash "r"
  else if b =? 9 then String backslash "t"
  else String backslash
         (String "x" (String (hex_digit (b / 16)) (String (hex_digit (b mod 16)) EmptyString))).

Fixpoint escape_bytes (quote : ascii) (s : string) : string :=
  match s with
  | EmptyString => EmptyString
  | String c s' => escape_byte quote c +:+ escape_bytes quote s'
  end.

(** [str(payload)] for a [bytes] object: the literal [b'...'], quoted with
    double quotes when the bytes hold a single quote and no double quote. *)
Definition str_bytes (payload : string) : string :=
  let quote :=
    if contains squote payload && negb (contains dquote payload)
    then dquote else squote in
  String "b" (String quote (escape_bytes quote payload +:+ String quote EmptyString)).

(** The body of the [for row in qrdecoder.decode(..)] loop:
    [try: found_data = payload.decode("utf-8") except: found_data = str(payload)]. *)
Definition decode_payload (payload : string) : string :=
  match bytes_decode_utf8 payload with
  | Some text => text
  | None => str_bytes payload
  end.

(** ** 4. The camera and the scan loop *)

Inductive camera := EspCamera.
Inductive qr_decoder := QRDecoder.

(** The two globals the camera set-up leaves behind; both start as [None]
    and keep that value when the set-up raises before assigning them. *)
Record hardware := Hardware { cam : option camera; qrdecoder : option qr_decoder }.

(** What the set-up at start meets: each step of its [try] body goes
    through ([true]) or raises. *)
Record setup_steps := SetupSteps {
  camera_created : bool;
  orientation_set : bool;
  decoder_created : bool
}.

(** The camera set-up.  [cam] and [qrdecoder] are bound to [None] first;
    the [try] body assigns [cam], sets [vflip] and [hmirror] on it and then
    assigns [qrdecoder]; a step that raises leaves the later ones undone and
    the handler prints "Camera Init Failed".  The second component tells
    whether the handler ran. *)
Definition camera_setup (w : setup_steps) : hardware * bool :=
  let cam := None in
  let qrdecoder := None in
  if camera_created w then
    let cam := Some EspCamera in
    if orientation_set w then
      if decoder_created w then (Hardware cam (Some QRDecoder), false)
      else (Hardware cam qrdecoder, true)
    else (Hardware cam qrdecoder, true)
  else (Hardware cam qrdecoder, true).

(** What one pass of the [while True] loop of [perform_scan] meets: the
    [try] body raises, or a frame is taken and decoded into the payloads of
    its rows, and [btn_left] is read as pressed or not. *)
Inductive frame_event :=
  | FrameError
  | Frame (payloads : list string) (left_pressed : bool).

(** Truth value of [found_data]: [None] and the empty string are false. *)
Definition truthy (d : option string) : bool :=
  match d with
  | Some s => negb (bool_decide (s = ""))
  | None => false
  end.

(** The loop, over the passes still to come; [takes] counts the calls of
    [cam.take].  The result is [None] when the given passes end with the
    loop still running. *)
Fixpoint scan_loop (qr : option qr_decoder) (found_data : option string)
    (takes : nat) (events : list frame_event) : option (option string * nat) :=
  match events with
  | [] => None
  | FrameError :: _ => Some (found_data, S takes)
  | Frame payloads left_pressed :: rest =>
    match qr with
    | None => Some (found_data, S takes)
    | Some _ =>
      let found_data' :=
        foldl (fun _ payload => Some (decode_payload payload)) found_data payloads in
      if truthy found_data' then Some (found_data', S takes)
      else if left_pressed then Some (found_data', S takes)
      else scan_loop qr found_data' (S takes) rest
    end
  end.

Definition perform_scan (hw : hardware) (events : list frame_event)
  : option (option string * nat) :=
  match cam hw with
  | None => Some (None, 0%nat)
  | Some _ => scan_loop (qrdecoder hw) None 0 events
  end.

(** ** 5. The main loop *)

(** A button read in one pass of the loop: [true] when [not btn.value],
    that is, when the button is pressed. *)
Record buttons := Buttons {
  btn_up : bool; btn_down : bool; btn_ok : bool; btn_left : bool; btn_right : bool
}.

Inductive group_item := Background | Header | QrTile (fine : Z).

(** The variables of the main program.  A digit label is represented by the
    number its text spells ([digit_text] gives the text back);
    [temp_user_id] and [current_mode] are unbound until first assigned. *)
Record session := Session {
  current_state : Z;
  current_user : string;
  current_fine : Z;
  selected_isbn : string;
  id_pos : Z;
  pin_pos : Z;
  menu_index : Z;
  book_index : Z;
  confirm_index : Z;
  temp_user_id : option string;
  current_mode : option string;
  id_digits : list Z;
  pin_digits : list Z;
  qr_group : list group_item;
  db : ledger
}.

Definition set_current_state (v : Z) (s : session) : session :=
  let 'Session _ a b c d e f g h i j k l m n := s in Session v a b c d e f g h i j k l m n.
Definition set_current_user (v : string) (s : session) : session :=
  let 'Session z _ b c d e f g h i j k l m n := s in Session z v b c d e f g h i j k l m n.
Definition set_current_fine (v : Z) (s : session) : session :=
  let 'Session z a _ c d e f g h i j k l m n := s in Session z a v c d e f g h i j k l m n.
Definition set_selected_isbn (v : string) (s : session) : session :=
  let 'Session z a b _ d e f g h i j k l m n := s in Session z a b v d e f g h i j k l m n.
Definition set_id_pos (v : Z) (s : session) : session :=
  let 'Session z a b c _ e f g h i j k l m n := s in Session z a b c v e f g h i j k l m n.
Definition set_pin_pos (v : Z) (s : session) : session :=
  let 'Session z a b c d _ f g h i j k l m n := s in Session z a b c d v f g h i j k l m n.
Definition set_menu_index (v : Z) (s : session) : session :=
  let 'Session z a b c d e _ g h i j k l m n := s in Session z a b c d e v g h i j k l m n.
Definition set_book_index (v : Z) (s : session) : session :=
  let 'Session z a b c d e f _ h i j k l m n := s in Session z a b c d e f v h i j k l m n.
Definition set_confirm_index (v : Z) (s : session) : session :=
  let 'Session z a b c d e f g _ i j k l m n := s in Session z a b c d e f g v i j k l m n.
Definition set_temp_user_id (v : option string) (s : session) : session :=
  let 'Session z a b c d e f g h _ j k l m n := s in Session z a b c d e f g h v j k l m n.
Definition set_current_mode (v : option string) (s : session) : session :=
  let 'Session z a b c d e f g h i _ k l m n := s in Session z a b c d e f g h i v k l m n.
Definition set_id_digits (v : list Z) (s : session) : session :=
  let 'Session z a b c d e f g h i j _ l m n := s in Session z a b c d e f g h i j v l m n.
Definition set_pin_digits (v : list Z) (s : session) : session :=
  let 'Session z a b c d e f g h i j k _ m n := s in Session z a b c d e f g h i j k v m n.
Definition set_qr_group (v : list group_item) (s : session) : session :=
  let 'Session z a b c d e f g h i j k l _ n := s in Session z a b c d e f g h i j k l v n.
Definition set_db (v : ledger) (s : session) : session :=
  let 'Session z a b c d e f g h i j k l m _ := s in Session z a b c d e f g h i j k l m v.

(** The state of the program when the [while True] loop is entered. *)
Definition initial_session : session :=
  Session 3 "" 0 "" 0 0 0 0 0 None None [0; 0] [0; 0; 0; 0]
          [Background; Header] initial_ledger.

(** [str(d)] for a digit [d] between 0 and 9. *)
Definition digit_text (d : Z) : string :=
  String (ascii_of_nat (Z.to_nat (48 + d))) EmptyString.

(** [''.join(d.text for d in digits)]. *)
Definition join_digits (digits : list Z) : string :=
  foldr (fun d acc => digit_text d +:+ acc) "" digits.

(** [int(digits[pos].text)]; the cursor is never negative and always on a
    label. *)
Definition digit_at (digits : list Z) (pos : Z) : Z :=
  default 0 (digits !! Z.to_nat pos).

(** [digits[pos].text = str((int(digits[pos].text) + delta) % 10)]. *)
Definition bump_digit (digits : list Z) (pos delta : Z) : list Z :=
  <[Z.to_nat pos := (digit_at digits pos + delta) mod 10]> digits.

(** [for d in digits: d.text = '0']. *)
Definition zero_digits (digits : list Z) : list Z := (fun _ => 0) <$> digits.

(** What one pass of the loop body does: it reaches the next pass, stops
    the program with an uncaught exception, or is still inside the scan. *)
Inductive tick_result :=
  | Next (s : session)
  | Raises (exn : string)
  | Scanning.

Definition when (c : bool) (f : session -> session) (s : session) : session :=
  if c then f s else s.

(** [current_state == 3]: the four cursor and digit lines of the ID entry. *)
Definition id_inputs (b : buttons) (s : session) : session :=
  let s := when (btn_left b && (0 <? id_pos s)) (fun s => set_id_pos (id_pos s - 1) s) s in
  let s := when (btn_right b && (id_pos s <? 1)) (fun s => set_id_pos (id_pos s + 1) s) s in
  let s := when (btn_up b) (fun s => set_id_digits (bump_digit (id_digits s) (id_pos s) 1) s) s in
  when (btn_down b) (fun s => set_id_digits (bump_digit (id_digits s) (id_pos s) (-1)) s) s.

(** [current_state == 3]: the ID entry. *)
Definition tick_id (b : buttons) (s : session) : tick_result :=
  let s := id_inputs b s in
  if btn_ok b then
    let user_id := join_digits (id_digits s) in
    match users_db (db s) !! user_id with
    | Some _ =>
      Next (set_pin_digits (zero_digits (pin_digits s))
             (set_current_state 4 (set_pin_pos 0 (set_temp_user_id (Some user_id) s))))
    | None => Next s
    end
  else Next s.

(** [current_state == 4]: the four cursor and digit lines of the PIN entry. *)
Definition pin_inputs (b : buttons) (s : session) : session :=
  let s := when (btn_left b && (0 <? pin_pos s)) (fun s => set_pin_pos (pin_pos s - 1) s) s in
  let s := when (btn_right b && (pin_pos s <? 3)) (fun s => set_pin_pos (pin_pos s + 1) s) s in
  let s := when (btn_up b) (fun s => set_pin_digits (bump_digit (pin_digits s) (pin_pos s) 1) s) s in
  when (btn_down b) (fun s => set_pin_digits (bump_digit (pin_digits s) (pin_pos s) (-1)) s) s.

(** [current_state == 4]: the PIN entry. *)
Definition tick_pin (b : buttons) (s : session) : tick_result :=
  let s := pin_inputs b s in
  if btn_ok b then
    let entered := join_digits (pin_digits s) in
    match temp_user_id s with
    | None => Raises "NameError"
    | Some uid =>
      match users_db (db s) !! uid with
      | None => Raises "KeyError"
      | Some u =>
        if bool_decide (entered = password u) then
          Next (set_current_state 0 (set_menu_index 0 (set_current_user uid s)))
        else
          Next (set_pin_pos 0 (set_pin_digits (zero_digits (pin_digits s)) s))
      end
    end
  else Next s.

(** [current_state == 0]: the main menu. *)
Definition tick_menu (b : buttons) (s : session) : tick_result :=
  let s := when (btn_up b) (fun s => set_menu_index ((menu_index s - 1) mod 3) s) s in
  let s := when (btn_down b) (fun s => set_menu_index ((menu_index s + 1) mod 3) s) s in
  if btn_ok b then
    if menu_index s =? 2 then
      Next (set_id_digits (zero_digits (id_digits s))
             (set_current_state 3 (set_current_user "" s)))
    else
      let mode := if menu_index s =? 0 then "ISSUE" else "RETURN" in
      Next (set_current_state 6 (set_current_mode (Some mode) s))
  else Next s.

(** [current_state == 6]: the camera scan. *)
Definition tick_scan (hw : hardware) (events : list frame_event) (s : session)
  : tick_result :=
  match perform_scan hw events with
  | None => Scanning
  | Some (scanned_code, _) =>
    if truthy scanned_code then
      let code := default "" scanned_code in
      match books_db (db s) !! code, current_mode s with
      | Some _, Some _ =>
        Next (set_current_state 5 (set_confirm_index 0 (set_selected_isbn code s)))
      | Some _, None => Raises "NameError"
      | None, _ => Next (set_current_state 0 s)
      end
    else
      match current_mode s with
      | Some _ => Next (set_current_state 1 (set_book_index 0 s))
      | None => Raises "NameError"
      end
  end.

(** [current_state == 1]: the manual selection. *)
Definition tick_select (b : buttons) (s : session) : tick_result :=
  let s := when (btn_up b) (fun s => set_book_index ((book_index s - 1) mod 5) s) s in
  let s := when (btn_down b) (fun s => set_book_index ((book_index s + 1) mod 5) s) s in
  let s := when (btn_left b) (set_current_state 0) s in
  if btn_ok b then
    match book_keys !! Z.to_nat (book_index s), current_mode s with
    | None, _ => Raises "IndexError"
    | Some _, None => Raises "NameError"
    | Some key, Some _ =>
      Next (set_current_state 5 (set_confirm_index 0 (set_selected_isbn key s)))
    end
  else Next s.

(** [current_state == 5]: the book confirmation. *)
Definition tick_confirm (now_time : Z) (b : buttons) (s : session) : tick_result :=
  let s := when (btn_up b) (set_confirm_index 0) s in
  let s := when (btn_down b) (set_confirm_index 1) s in
  if btn_ok b then
    if confirm_index s =? 0 then
      match current_mode s with
      | None => Raises "NameError"
      | Some mode =>
        let '(db', (h, body, f)) :=
          if bool_decide (mode = "ISSUE")
          then issue_book_logic now_time (db s) (current_user s) (selected_isbn s)
          else return_book_logic now_time (db s) (current_user s) (selected_isbn s) in
        Next (set_current_state 2 (set_current_fine f (set_db db' s)))
      end
    else Next (set_current_state 0 s)
  else Next s.

(** [current_state == 2]: the result screen. *)
Definition tick_result_screen (b : buttons) (s : session) : tick_result :=
  if btn_ok b then
    match current_mode s with
    | None => Raises "NameError"
    | Some mode =>
      if bool_decide (mode = "RETURN") && (0 <? current_fine s) then
        Next (set_current_state 7
               (set_qr_group (qr_group s ++ [QrTile (current_fine s)])%list s))
      else Next (set_current_state 0 s)
    end
  else Next s.

(** [current_state == 7]: the payment code. *)
Definition tick_qr (b : buttons) (s : session) : tick_result :=
  if btn_ok b then
    match qr_group s with
    | [] => Raises "IndexError"
    | _ :: _ => Next (set_current_state 0 (set_qr_group (removelast (qr_group s)) s))
    end
  else Next s.

(** One pass of the [while True] loop. *)
Definition tick (hw : hardware) (now_time : Z) (b : buttons)
    (events : list frame_event) (s : session) : tick_result :=
  if current_state s =? 3 then tick_id b s
  else if current_state s =? 4 then tick_pin b s
  else if current_state s =? 0 then tick_menu b s
  else if current_state s =? 6 then tick_scan hw events s
  else if current_state s =? 1 then tick_select b s
  else if current_state s =? 5 then tick_confirm now_time b s
  else if current_state s =? 2 then tick_result_screen b s
  else if current_state s =? 7 then tick_qr b s
  else Next s.

(** What one pass reads from outside: the clock, the buttons, and, if it
    scans, the passes of the scan loop. *)
Record pass_input := PassInput {
  pass_now : Z;
  pass_buttons : buttons;
  pass_events : list frame_event
}.

(** The [while True] loop over the given passes; it stops early when a pass
    raises or stays in the scan. *)
Fixpoint run_loop (hw : hardware) (inputs : list pass_input) (s : session)
  : tick_result :=
  match inputs with
  | [] => Next s
  | i :: rest =>
    match tick hw (pass_now i) (pass_buttons i) (pass_events i) s with
    | Next s' => run_loop hw rest s'
    | Raises exn => Raises exn
    | Scanning => Scanning
    end
  end.

(** ** 6. Notions used in the statements *)

(** The entries of [borrowings[u]], none when [u] is not a key. *)
Definition user_borrowings (L : ledger) (u : string) : list borrowing :=
  default [] (borrowings L !! u).

(** Number of entries for book [b] in one user's list. *)
Fixpoint count_isbn (b : string) (l : list borrowing) : Z :=
  match l with
  | [] => 0
  | x :: l' => (if decide (isbn x = b) then 1 else 0) + count_isbn b l'
  end.

(** Number of entries for book [b] over all users. *)
Definition held_count (b : string) (bs : gmap string (list borrowing)) : Z :=
  map_fold (fun _ l acc => acc + count_isbn b l) 0 bs.

(** A start state as the script sets it up: nothing lent yet, and every
    book's available count within its total. *)
Definition provisioned (L0 : ledger) : Prop :=
  borrowings L0 = ∅ ∧
  ∀ b bk, books_db L0 !! b = Some bk → 0 <= available bk <= total bk.

(** What every state reached from [L0] satisfies. *)
Record ledger_inv (L0 L : ledger) : Prop := LedgerInv {
  inv_users : users_db L = users_db L0;
  inv_books : ∀ b,
    match books_db L !! b, books_db L0 !! b with
    | Some bk, Some bk0 =>
        title bk = title bk0 ∧ total bk = total bk0 ∧ 0 <= available bk ∧
        available bk + held_count b (borrowings L) = available bk0
    | None, None => held_count b (borrowings L) = 0
    | _, _ => False
    end;
  inv_nonempty : ∀ u l, borrowings L !! u = Some l → l ≠ []
}.

(** The code's [now_sec]: the clock reading plus the test delay. *)
Definition now_sec (now_time : Z) : Z := now_time + test_delay_seconds.

(** No user has two entries for the same book. *)
Definition one_borrowing_per_book (L : ledger) : Prop :=
  ∀ u b, count_isbn b (user_borrowings L u) <= 1.

(** The fine an [Issue] followed at once by a [Return] ends with. *)
Definition immediate_return_fine (now_time : Z) (L : ledger) (u b : string) : Z :=
  snd (snd (return_book_logic now_time (fst (issue_book_logic now_time L u b)) u b)).

(** What holds of the program variables at the top of every pass of the
    main loop. *)
Record session_ok (s : session) : Prop := SessionOk {
  ok_state : 0 <= current_state s <= 7;
  ok_users : users_db (db s) = initial_users_db;
  ok_temp : current_state s = 4 →
            ∃ uid, temp_user_id s = Some uid ∧ is_Some (users_db (db s) !! uid);
  ok_mode : current_state s = 6 ∨ current_state s = 1 ∨ current_state s = 5 ∨
            current_state s = 2 ∨ current_state s = 7 →
            is_Some (current_mode s);
  ok_qr : current_state s = 7 → qr_group s ≠ [];
  ok_id_pos : 0 <= id_pos s <= 1;
  ok_pin_pos : 0 <= pin_pos s <= 3;
  ok_menu_index : 0 <= menu_index s <= 2;
  ok_book_index : 0 <= book_index s <= 4;
  ok_id_digits : List.length (id_digits s) = 2%nat;
  ok_pin_digits : List.length (pin_digits s) = 4%nat
}.

(** ** 7. Further notions *)

(** The clock reading an operation is made at. *)
Definition op_time (o : op) : Z :=
  match o with
  | Issue t _ _ => t
  | Return t _ _ => t
  end.

(** The header of a result says that the ledger operation went through. *)
Definition succeeded (r : result) : Prop :=
  r.1.1 = "SUCCESS!" ∨ r.1.1 = "RETURNED".

(** Every entry carries the clock reading [c]. *)
Definition all_issued_at (c : Z) (L : ledger) : Prop :=
  ∀ u l x, borrowings L !! u = Some l → x ∈ l → issue_time x = c.

(** Every key of [borrowings] is a user of [users_db]. *)
Definition borrowers_known (L : ledger) : Prop :=
  ∀ u, is_Some (borrowings L !! u) → is_Some (users_db L !! u).

(** Every byte is below 128. *)
Fixpoint is_ascii (s : string) : bool :=
  match s with
  | EmptyString => true
  | String c s' => (byte_val c <=? 127) && is_ascii s'
  end.

(** What holds, beyond [session_ok], of the program variables at the top of
    every pass of the main loop. *)
Record session_inv (s : session) : Prop := SessionInv {
  inv_logged_out :
    current_state s = 3 ∨ current_state s = 4 → current_user s = EmptyString;
  inv_logged_in :
    current_state s ≠ 3 → current_state s ≠ 4 →
    is_Some (users_db (db s) !! current_user s);
  inv_qr_group :
    qr_group s = if current_state s =? 7
                 then [Background; Header; QrTile (current_fine s)]
                 else [Background; Header];
  inv_qr_fine :
    current_state s = 7 → 0 < current_fine s ∧ current_mode s = Some "RETURN";
  inv_id_digits : Forall (fun d => 0 <= d <= 9) (id_digits s);
  inv_pin_digits : Forall (fun d => 0 <= d <= 9) (pin_digits s);
  inv_mode : ∀ m, current_mode s = Some m → m = "ISSUE" ∨ m = "RETURN";
  inv_selected :
    current_state s = 5 → is_Some (books_db (db s) !! selected_isbn s);
  inv_db : ∃ ops, db s = run initial_ledger ops
}.

(** Button readings and passes used in the examples: one button pressed in
    a pass, clock at 0, and for a scanning pass the frames it meets. *)
Definition press_up : pass_input := PassInput 0 (Buttons true false false false false) [].
Definition press_down : pass_input := PassInput 0 (Buttons false true false false false) [].
Definition press_ok : pass_input := PassInput 0 (Buttons false false true false false) [].
Definition press_left : pass_input := PassInput 0 (Buttons false false false true false) [].
Definition press_right : pass_input := PassInput 0 (Buttons false false false false true) [].
Definition scan_frames (events : list frame_event) : pass_input :=
  PassInput 0 (Buttons false false false false false) events.

Definition working_camera : hardware := Hardware (Some EspCamera) (Some QRDecoder).

(** Logging in as user 01 with the PIN 1234. *)
Definition login_01 : list pass_input :=
  [press_right; press_up; press_ok;
   press_up; press_right; press_up; press_up; press_right;
   press_up; press_up; press_up; press_right;
   press_up; press_up; press_up; press_up; press_ok].

(** After the login: ISSUE from the menu, the code of book 978-1 scanned,
    Yes, and OK on the result screen. *)
Definition issue_978_1 : list pass_input :=
  [press_ok; scan_frames [Frame [] false; Frame ["978-1"] false]; press_ok; press_ok].

(** Then: RETURN from the menu, the same code scanned, Yes. *)
Definition return_978_1 : list pass_input :=
  [press_down; press_ok; scan_frames [Frame ["978-1"] false]; press_ok].

(** The screens one pass can lead to from the screen [st]. *)
Definition next_states (st : Z) : list Z :=
  if st =? 3 then [3; 4]
  else if st =? 4 then [4; 0]
  else if st =? 0 then [0; 3; 6]
  else if st =? 6 then [5; 0; 1]
  else if st =? 1 then [1; 0; 5]
  else if st =? 5 then [5; 2; 0]
  else if st =? 2 then [2; 7; 0]
  else if st =? 7 then [7; 0]
  else [st].

(** ** 8. Wrapping the result text *)

(** [wrap_text] works on the characters of the text; the texts the program
    wraps are plain ASCII, one byte a character. *)
Definition space : ascii := ascii_of_nat 32.
Definition newline : ascii := ascii_of_nat 10.

(** The characters [str.strip()] removes: space, tab, line feed, vertical
    tab, form feed and carriage return. *)
Definition is_space (c : ascii) : bool :=
  (byte_val c =? 32) || in_range 9 13 (byte_val c).

(** Where a slice bound [i] falls in a sequence of length [len]: a negative
    bound counts from the end, and both ends are clipped. *)
Definition slice_index (len : nat) (i : Z) : nat :=
  Z.to_nat (if i <? 0 then Z.max 0 (Z.of_nat len + i) else Z.min i (Z.of_nat len)).

(** [line[:i]] and [line[i:]]. *)
Definition slice_to (line : list ascii) (i : Z) : list ascii :=
  take (slice_index (List.length line) i) line.
Definition slice_from (line : list ascii) (i : Z) : list ascii :=
  drop (slice_index (List.length line) i) line.

(** The highest index of [c] in [line], or -1. *)
Fixpoint rfind (c : ascii) (line : list ascii) : Z :=
  match line with
  | [] => -1
  | x :: line' =>
    let r := rfind c line' in
    if r =? -1 then (if decide (x = c) then 0 else -1) else r + 1
  end.

Fixpoint lstrip (line : list ascii) : list ascii :=
  match line with
  | [] => []
  | c :: line' => if is_space c then lstrip line' else line
  end.

(** [line.strip()]. *)
Definition strip (line : list ascii) : list ascii :=
  reverse (lstrip (reverse (lstrip line))).

(** [text.split('\n')]: the first piece and the pieces after it. *)
Fixpoint split_pair (text : list ascii) : list ascii * list (list ascii) :=
  match text with
  | [] => ([], [])
  | c :: text' =>
    let '(cur, rest) := split_pair text' in
    if decide (c = newline) then ([], cur :: rest) else (c :: cur, rest)
  end.

Definition split_lines (text : list ascii) : list (list ascii) :=
  (split_pair text).1 :: (split_pair text).2.

(** ['\n'.join(lines)]. *)
Fixpoint join_lines (lines : list (list ascii)) : list ascii :=
  match lines with
  | [] => []
  | [line] => line
  | line :: lines' => line ++ newline :: join_lines lines'
  end.

(** The [while len(line) > max_chars] loop, run for at most [fuel] tests of
    its condition; [None] when the loop is still running after that. *)
Fixpoint wrap_line (fuel : nat) (max_chars : Z) (line : list ascii)
    (lines : list (list ascii)) : option (list (list ascii)) :=
  match fuel with
  | O => None
  | S fuel' =>
    if max_chars <? Z.of_nat (List.length line) then
      let split_idx := rfind space (slice_to line max_chars) in
      let split_idx := if split_idx =? -1 then max_chars else split_idx in
      wrap_line fuel' max_chars (strip (slice_from line split_idx))
        (lines ++ [slice_to line split_idx])
    else Some (lines ++ [line])
  end.

(** The [for line in text.split('\n')] loop. *)
Fixpoint wrap_lines (fuel : nat) (max_chars : Z) (todo : list (list ascii))
    (lines : list (list ascii)) : option (list (list ascii)) :=
  match todo with
  | [] => Some lines
  | line :: todo' =>
    match wrap_line fuel max_chars line lines with
    | Some lines' => wrap_lines fuel max_chars todo' lines'
    | None => None
    end
  end.

Definition wrap_text (fuel : nat) (text : string) (max_chars : Z) : option string :=
  match wrap_lines fuel max_chars (split_lines (list_ascii_of_string text)) [] with
  | Some lines => Some (string_of_list_ascii (join_lines lines))
  | None => None
  end.

(** The characters of a text that are not white space, in order. *)
Definition ink (text : list ascii) : list ascii :=
  filter (fun c => is_space c = false) text.

(** No line is longer than [m]. *)
Definition narrow (m : Z) (lines : list (list ascii)) : Prop :=
  Forall (fun l => Z.of_nat (List.length l) <= m) lines.

(** No line holds a line feed. *)
Definition one_line (lines : list (list ascii)) : Prop :=
  Forall (fun l => newline ∉ l) lines.

(** The [ink] of all the lines, one after the other. *)
Definition all_ink (lines : list (list ascii)) : list ascii :=
  List.concat (ink <$> lines).

(** ** 9. The payment code *)

(** The matrix [qr.matrix] of the QR library: its size and its modules. *)
Record bit_matrix := BitMatrix {
  m_width : Z;
  m_height : Z;
  m_bit : Z → Z → bool
}.

(** A [displayio.Bitmap]: its size and the pixels written so far, the
    others being 0. *)
Record bitmap := Bitmap {
  b_width : Z;
  b_height : Z;
  pixels : gmap (Z * Z) Z
}.

Definition pixel (bm : bitmap) (x y : Z) : Z := default 0 (pixels bm !! (x, y)).

(** [bitmap[x, y] = v]; [None] stands for the error raised when the
    coordinates are outside the bitmap. *)
Definition set_pixel (x y v : Z) (bm : bitmap) : option bitmap :=
  if (0 <=? x) && (x <? b_width bm) && (0 <=? y) && (y <? b_height bm)
  then Some (Bitmap (b_width bm) (b_height bm) (<[(x, y) := v]> (pixels bm)))
  else None.

(** [for i in range(n): body], stopping at the first error. *)
Definition for_range {A : Type} (n : Z) (body : Z → A → option A) (a : A) : option A :=
  foldl (fun acc i => acc ≫= body i) (Some a) (seqZ 0 n).

(** The text of the payment URI for a fine. *)
Definition payment_url (fine : Z) : string :=
  "upi://pay?pa=library@upi&pn=Smart Library&am="
  +:+ NilZero.string_of_int (Z.to_int fine) +:+ "&cu=INR&tn=Book Fine".

(** The bitmap part of [generate_qr]: every set module of the matrix
    becomes a block of [scale] by [scale] pixels, [border] modules in from
    the edge. *)
Definition render_matrix (matrix : bit_matrix) : option bitmap :=
  let scale := 4 in
  let border := 2 in
  let width := (m_width matrix + 2 * border) * scale in
  let height := width in
  for_range (m_width matrix) (fun x =>
    for_range (m_height matrix) (fun y bm =>
      if m_bit matrix x y then
        for_range scale (fun i =>
          for_range scale (fun j =>
            set_pixel (x * scale + border * scale + i)
                      (y * scale + border * scale + j) 1)) bm
      else Some bm))
    (Bitmap width height ∅).

(** The tile [generate_qr] returns: the bitmap and where it is put. *)
Record tile := Tile { tile_bitmap : bitmap; tile_x : Z; tile_y : Z }.

(** [generate_qr]; [make_matrix] stands for the QR library ([QRCode],
    [add_data], [make]), which turns the bytes of the URI into a matrix.
    The display of the board is 240 pixels wide. *)
Definition generate_qr (make_matrix : string → bit_matrix) (fine : Z) : option tile :=
  let matrix := make_matrix (payment_url fine) in
  match render_matrix matrix with
  | Some bm => Some (Tile bm ((240 - b_width bm) / 2) 40)
  | None => None
  end.

(** Every pixel is 0 or 1. *)
Definition binary (bm : bitmap) : Prop :=
  ∀ px py, pixel bm px py = 0 ∨ pixel bm px py = 1.

(** [bm] is [bm0] with the pixels of [Q] set to 1: same size, still binary,
    and a pixel of [bm] is 1 exactly when it is in [Q] or was 1 already. *)
Definition painted (Q : Z → Z → Prop) (bm0 bm : bitmap) : Prop :=
  b_width bm = b_width bm0 ∧ b_height bm = b_height bm0 ∧
  (binary bm0 → binary bm) ∧
  ∀ px py, pixel bm px py = 1 ↔ Q px py ∨ pixel bm0 px py = 1.

(** * Properties *)

Section ListFacts.

Lemma find_isbn_Some b l x :
  find_isbn b l = Some x → x ∈ l ∧ isbn x = b.
Proof.
  induction l as [|y l IH]; simpl; [done|].
  case_decide as Hy.
  - intros [= <-]. split; [left | done].
  - intros Hf. destruct (IH Hf). split; [by right | done].
Qed.

Lemma find_isbn_None b l :
  find_isbn b l = None ↔ ∀ x, x ∈ l → isbn x ≠ b.
Proof.
  induction l as [|y l IH]; simpl.
  - split; [intros _ x Hx; inversion Hx | done].
  - case_decide as Hy.
    + split; [done|]. intros H. destruct (H y); [left | done].
    + rewrite IH. split.
      * intros H x Hx. apply list_elem_of_In in Hx. destruct Hx as [->|Hx]; [done|].
        apply H. by apply list_elem_of_In.
      * intros H x Hx. apply H. by right.
Qed.

Lemma count_isbn_nonneg b l : 0 <= count_isbn b l.
Proof. induction l; simpl; [lia|]. case_decide; lia. Qed.

Lemma count_isbn_app b l1 l2 :
  count_isbn b (l1 ++ l2) = count_isbn b l1 + count_isbn b l2.
Proof. induction l1; simpl; [done|]. case_decide; lia. Qed.

Lemma count_isbn_elem b l x :
  x ∈ l → isbn x = b → 1 <= count_isbn b l.
Proof.
  induction l as [|y l IH]; [by inversion 1|].
  intros Hx Hb. simpl. apply list_elem_of_In in Hx. destruct Hx as [->|Hx].
  - rewrite decide_True by done. pose proof (count_isbn_nonneg b l). lia.
  - apply list_elem_of_In in Hx. specialize (IH Hx Hb). case_decide; lia.
Qed.

Lemma count_isbn_zero b l :
  count_isbn b l = 0 → ∀ x, x ∈ l → isbn x ≠ b.
Proof.
  intros H0 x Hx Hb. pose proof (count_isbn_elem b l x Hx Hb). lia.
Qed.

Lemma count_isbn_remove b l x :
  x ∈ l →
  count_isbn b (remove x l) = count_isbn b l - (if decide (isbn x = b) then 1 else 0).
Proof.
  induction l as [|y l IH]; [by inversion 1|].
  intros Hx. simpl. destruct (decide (y = x)) as [->|Hne].
  - lia.
  - simpl. rewrite IH; [lia|].
    apply list_elem_of_In in Hx. destruct Hx as [->|Hx]; [done|].
    by apply list_elem_of_In.
Qed.

(** Removing the entry found for [b] leaves the entries from the first one
    for [b] on, without it. *)
Lemma remove_found b l x :
  find_isbn b l = Some x →
  ∃ l1 l2, l = l1 ++ x :: l2 ∧ remove x l = l1 ++ l2 ∧ ∀ y, y ∈ l1 → isbn y ≠ b.
Proof.
  induction l as [|y l IH]; simpl; [done|].
  case_decide as Hy.
  - intros [= <-]. exists [], l. simpl. rewrite decide_True by done.
    repeat split. intros z Hz. inversion Hz.
  - intros Hf. destruct (IH Hf) as (l1 & l2 & -> & Hr & Hl1).
    destruct (find_isbn_Some _ _ _ Hf) as [_ Hb].
    exists (y :: l1), l2. simpl. rewrite decide_False by congruence.
    rewrite Hr. repeat split.
    intros z Hz. apply list_elem_of_In in Hz. destruct Hz as [->|Hz]; [done|].
    apply Hl1. by apply list_elem_of_In.
Qed.

End ListFacts.

Section HeldCount.

Implicit Types (bs : gmap string (list borrowing)) (b u : string).

Lemma held_count_empty b : held_count b ∅ = 0.
Proof. unfold held_count. by rewrite map_fold_empty. Qed.

Lemma held_count_lookup b bs u l :
  bs !! u = Some l →
  held_count b bs = held_count b (delete u bs) + count_isbn b l.
Proof.
  intros Hu. unfold held_count.
  rewrite (map_fold_delete_L _ _ u l bs); [done| |done].
  intros. lia.
Qed.

Lemma held_count_delete b bs u :
  held_count b (delete u bs) = held_count b bs - count_isbn b (default [] (bs !! u)).
Proof.
  destruct (bs !! u) as [l|] eqn:Hu; simpl.
  - rewrite (held_count_lookup b bs u l Hu). lia.
  - rewrite delete_id by done. lia.
Qed.

Lemma held_count_insert b bs u l :
  held_count b (<[u := l]> bs)
  = held_count b bs - count_isbn b (default [] (bs !! u)) + count_isbn b l.
Proof.
  rewrite (held_count_lookup b (<[u := l]> bs) u l) by apply lookup_insert_eq.
  rewrite delete_insert_eq. rewrite held_count_delete. lia.
Qed.

Lemma held_count_nonneg b bs : 0 <= held_count b bs.
Proof.
  unfold held_count. apply (map_fold_weak_ind (fun r _ => 0 <= r)); [lia|].
  intros u l m r _ Hr. pose proof (count_isbn_nonneg b l). lia.
Qed.

Lemma held_count_ge b bs u l :
  bs !! u = Some l → count_isbn b l <= held_count b bs.
Proof.
  intros Hu. rewrite (held_count_lookup b bs u l Hu).
  pose proof (held_count_nonneg b (delete u bs)). lia.
Qed.

End HeldCount.

Section Invariant.

Implicit Types (L : ledger) (u b : string).

Lemma ledger_inv_init (L0 : ledger) : provisioned L0 → ledger_inv L0 L0.
Proof.
  intros [Hbs Hbk]. split.
  - done.
  - intros b. rewrite Hbs, held_count_empty.
    destruct (books_db L0 !! b) as [bk|] eqn:Hb; [|done].
    specialize (Hbk b bk Hb). repeat split; lia.
  - intros u l. rewrite Hbs. by rewrite lookup_empty.
Qed.

Lemma issue_book_logic_inv (L0 : ledger) L now u b :
  ledger_inv L0 L → ledger_inv L0 (fst (issue_book_logic now L u b)).
Proof.
  intros [Hu Hb Hne]. unfold issue_book_logic.
  destruct (users_db L !! u); [|by split].
  destruct (books_db L !! b) as [bk|] eqn:Hbk; [|by split].
  destruct (0 <? available bk) eqn:Hav; [|by split].
  apply Z.ltb_lt in Hav. simpl. split; simpl.
  - done.
  - intros b'. rewrite held_count_insert, count_isbn_app. simpl.
    destruct (decide (b = b')) as [<-|Hbb].
    + rewrite lookup_insert_eq. specialize (Hb b). rewrite Hbk in Hb.
      destruct (books_db L0 !! b); [|done]. simpl.
      repeat split; try tauto; lia.
    + rewrite lookup_insert_ne by done. specialize (Hb b').
      destruct (books_db L !! b'), (books_db L0 !! b'); try done.
      * repeat split; try tauto; lia.
      * lia.
  - intros u' l. destruct (decide (u = u')) as [<-|Huu].
    + rewrite lookup_insert_eq. intros [= <-]. by destruct (default [] _).
    + rewrite lookup_insert_ne by done. apply Hne.
Qed.

Lemma return_book_logic_inv (L0 : ledger) L now u b :
  ledger_inv L0 L → ledger_inv L0 (fst (return_book_logic now L u b)).
Proof.
  intros [Hu Hb Hne]. unfold return_book_logic.
  destruct (books_db L !! b) as [bk|] eqn:Hbk; [|by split].
  destruct (borrowings L !! u) as [held|] eqn:Hheld; [|by split].
  destruct (find_isbn b held) as [x|] eqn:Hfind; [|by split].
  destruct (find_isbn_Some _ _ _ Hfind) as [Hx Hxb].
  set (held' := remove x held).
  assert (Hcount : ∀ b',
    held_count b' (match held' with
                   | [] => delete u (borrowings L)
                   | _ :: _ => <[u := held']> (borrowings L)
                   end)
    = held_count b' (borrowings L) - (if decide (b = b') then 1 else 0)).
  { intros b'. pose proof (count_isbn_remove b' held x Hx) as Hr.
    fold held' in Hr. rewrite Hxb in Hr.
    destruct held' as [|y held''] eqn:Hh.
    - rewrite held_count_delete, Hheld. simpl in *. lia.
    - rewrite held_count_insert, Hheld. simpl default. lia. }
  simpl. split; simpl.
  - done.
  - intros b'. rewrite Hcount.
    destruct (decide (b = b')) as [<-|Hbb].
    + rewrite lookup_insert_eq. specialize (Hb b). rewrite Hbk in Hb.
      destruct (books_db L0 !! b); [|done]. simpl.
      repeat split; try tauto; lia.
    + rewrite lookup_insert_ne by done. specialize (Hb b').
      destruct (books_db L !! b'), (books_db L0 !! b'); try done.
      * repeat split; try tauto; lia.
      * lia.
  - intros u' l. fold held'. destruct held' as [|y held''] eqn:Hh.
    + destruct (decide (u = u')) as [<-|Huu].
      * by rewrite lookup_delete_eq.
      * rewrite lookup_delete_ne by done. apply Hne.
    + destruct (decide (u = u')) as [<-|Huu].
      * rewrite lookup_insert_eq. by intros [= <-].
      * rewrite lookup_insert_ne by done. apply Hne.
Qed.

Lemma step_inv (L0 : ledger) L o : ledger_inv L0 L → ledger_inv L0 (step L o).
Proof.
  destruct o; [apply issue_book_logic_inv | apply return_book_logic_inv].
Qed.

Lemma run_inv_from (L0 : ledger) L ops : ledger_inv L0 L → ledger_inv L0 (run L ops).
Proof.
  revert L. induction ops as [|o ops IH]; intros L HL; [done|].
  simpl. apply IH. by apply step_inv.
Qed.

Lemma run_inv (L0 : ledger) ops : provisioned L0 → ledger_inv L0 (run L0 ops).
Proof. intros H. by apply run_inv_from, ledger_inv_init. Qed.

Lemma initial_ledger_provisioned : provisioned initial_ledger.
Proof.
  split; [done|]. intros b bk. unfold initial_ledger, initial_books_db. simpl.
  rewrite !lookup_insert_Some, lookup_empty.
  intros H. repeat (destruct H as [[_ <-]|[_ H]]; [simpl; lia|]). done.
Qed.

End Invariant.

(** ** The lending ledger *)

Section Ledger.

Implicit Types (L : ledger) (u b : string).

Example issue_then_return_example :
  snd (apply_op (step initial_ledger (Issue 0 "01" "978-1")) (Return 0 "01" "978-1"))
  = ("RETURNED", ReturnedBook "Python Basics" 30 5, 30).
Proof. vm_compute. reflexivity. Qed.

(** The scenario of the catalogue's last book: one copy left, lent, asked
    for again, and returned twenty days later (the clock three days on, plus
    the seventeen days of the test delay). *)
Example calculus_scenario :
  let L1 := step initial_ledger (Issue 0 "02" "978-5") in
  (available <$> books_db L1 !! "978-5") = Some 0 ∧
  snd (apply_op L1 (Issue 0 "02" "978-5")) = ("OOPS!", NoCopiesLeft, 0) ∧
  snd (apply_op L1 (Return (3 * 86400) "02" "978-5"))
  = ("RETURNED", ReturnedBook "Calculus II" 75 1, 75).
Proof. vm_compute. repeat split. Qed.

(** Days held of 15, 16 and 30 give fines of 0, 15 and 225. *)
Example fine_thresholds :
  let L1 := step initial_ledger (Issue (2 * 86400) "01" "978-1") in
  snd (snd (apply_op L1 (Return 0 "01" "978-1"))) = 0 ∧
  snd (snd (apply_op L1 (Return 86400 "01" "978-1"))) = 15 ∧
  snd (snd (apply_op L1 (Return (15 * 86400) "01" "978-1"))) = 225.
Proof. vm_compute. repeat split. Qed.

(** C3.  From a provisioned start state, after any sequence of Issue and
    Return operations every book's available count lies between 0 and its
    total. *)
Theorem available_within_total (L0 : ledger) (ops : list op) b (bk : book) :
  provisioned L0 →
  books_db (run L0 ops) !! b = Some bk →
  0 <= available bk <= total bk.
Proof.
  intros Hprov Hbk. destruct (run_inv L0 ops Hprov) as [_ Hb _].
  specialize (Hb b). rewrite Hbk in Hb.
  destruct (books_db L0 !! b) as [bk0|] eqn:Hbk0; [|done].
  destruct Hb as (_ & Htot & Hlo & Hsum).
  destruct Hprov as [_ Hprov]. specialize (Hprov b bk0 Hbk0).
  pose proof (held_count_nonneg b (borrowings (run L0 ops))). lia.
Qed.

Lemma available_within_total_witness :
  provisioned initial_ledger ∧
  books_db (run initial_ledger
              [Issue 0 "02" "978-5"; Issue 0 "01" "978-5"; Return 0 "02" "978-5";
               Return 0 "02" "978-5"]) !! "978-5"
  = Some (Book "Calculus II" 2 1) ∧
  0 <= 1 <= 2.
Proof.
  split; [apply initial_ledger_provisioned|]. split; [vm_compute; reflexivity|].
  apply (available_within_total initial_ledger
           [Issue 0 "02" "978-5"; Issue 0 "01" "978-5"; Return 0 "02" "978-5";
            Return 0 "02" "978-5"] "978-5" (Book "Calculus II" 2 1)).
  - apply initial_ledger_provisioned.
  - vm_compute. reflexivity.
Defined.

Lemma find_isbn_app b (l : list borrowing) (x0 : borrowing) :
  find_isbn b (l ++ [x0])
  = match find_isbn b l with
    | Some x => Some x
    | None => if decide (isbn x0 = b) then Some x0 else None
    end.
Proof.
  induction l as [|y l IH]; simpl; [done|].
  destruct (decide (isbn y = b)); [done | exact IH].
Qed.

Lemma calculate_days_same now : calculate_days now now = 17.
Proof.
  unfold calculate_days, test_delay_seconds.
  replace (now + 17 * 86400 - now) with (17 * 86400) by lia.
  by rewrite Z.div_mul.
Qed.

(** C1, as the code has it.  For a known user and a known book with a copy
    available, Issue followed at once by Return at the same clock reading
    succeeds and leaves the book's record, hence its available count, as it
    was before the Issue.  The fine is not 0: Return adds the test delay of
    seventeen days to the clock, so the fine is (17 - 15) * 15 = 30 whenever
    the entries the user already held for that book, if any, carry the same
    clock reading. *)
Theorem issue_then_immediate_return now L u b (usr : user) (bk : book) :
  users_db L !! u = Some usr →
  books_db L !! b = Some bk →
  0 < available bk →
  let L1 := fst (issue_book_logic now L u b) in
  ∃ fine,
    snd (return_book_logic now L1 u b)
    = ("RETURNED", ReturnedBook (title bk) fine (available bk), fine) ∧
    books_db (fst (return_book_logic now L1 u b)) !! b = Some bk ∧
    ((∀ x, x ∈ user_borrowings L u → isbn x = b → issue_time x = now) →
     fine = 30).
Proof.
  intros Hu Hb Hav. unfold issue_book_logic. rewrite Hu, Hb.
  apply Z.ltb_lt in Hav. rewrite Hav. simpl.
  unfold return_book_logic. simpl. rewrite !lookup_insert_eq.
  rewrite find_isbn_app. simpl. rewrite decide_True by done.
  fold (user_borrowings L u).
  assert (Hsame : available bk - 1 + 1 = available bk) by lia.
  destruct (find_isbn b (user_borrowings L u)) as [x|] eqn:Hfind.
  - eexists. simpl. rewrite lookup_insert_eq, Hsame. split; [reflexivity|].
    split; [by destruct bk|].
    intros Hold. destruct (find_isbn_Some _ _ _ Hfind) as [Hx Hxb].
    rewrite (Hold x Hx Hxb), calculate_days_same. reflexivity.
  - eexists. simpl. rewrite lookup_insert_eq, Hsame. split; [reflexivity|].
    split; [by destruct bk|].
    intros _. rewrite calculate_days_same. reflexivity.
Qed.

Lemma issue_then_immediate_return_witness :
  users_db initial_ledger !! "01" = Some (User "Amit Sharma" "Student" "1234") ∧
  books_db initial_ledger !! "978-1" = Some (Book "Python Basics" 5 5) ∧
  0 < 5 ∧
  ∃ fine,
    snd (return_book_logic 0 (fst (issue_book_logic 0 initial_ledger "01" "978-1"))
           "01" "978-1")
    = ("RETURNED", ReturnedBook "Python Basics" fine 5, fine) ∧
    books_db (fst (return_book_logic 0
                     (fst (issue_book_logic 0 initial_ledger "01" "978-1"))
                     "01" "978-1")) !! "978-1"
    = Some (Book "Python Basics" 5 5) ∧
    ((∀ x, x ∈ user_borrowings initial_ledger "01" → isbn x = "978-1" →
           issue_time x = 0) → fine = 30).
Proof.
  split; [vm_compute; reflexivity|]. split; [vm_compute; reflexivity|].
  split; [lia|].
  apply (issue_then_immediate_return 0 initial_ledger "01" "978-1"
           (User "Amit Sharma" "Student" "1234") (Book "Python Basics" 5 5)).
  - vm_compute. reflexivity.
  - vm_compute. reflexivity.
  - simpl. lia.
Defined.

(** C1 as stated fails: from the start state, user 01 issuing book 978-1 and
    returning it at the same clock reading is charged 30, not 0. *)
Lemma immediate_return_fine_not_zero :
  ¬ (∀ now L u b (bk : book),
       is_Some (users_db L !! u) → books_db L !! b = Some bk → 0 < available bk →
       immediate_return_fine now L u b = 0).
Proof.
  intros H.
  specialize (H 0 initial_ledger "01" "978-1" (Book "Python Basics" 5 5)).
  assert (Hfine : immediate_return_fine 0 initial_ledger "01" "978-1" = 30)
    by (vm_compute; reflexivity).
  rewrite Hfine in H. discriminate H.
  - eexists. vm_compute. reflexivity.
  - vm_compute. reflexivity.
  - simpl. lia.
Qed.




(** C4, as the code has it.  Issue appends an entry whether or not the user
    already holds the book, so a user can hold the same book more than once;
    what holds in every state reached from a provisioned start is that a
    user's entries for a book number at most total - available of that book
    (and none for an identifier that is not in the catalogue). *)
Theorem borrowings_per_book_bounded (L0 : ledger) (ops : list op) u b :
  provisioned L0 →
  match books_db (run L0 ops) !! b with
  | Some bk => count_isbn b (user_borrowings (run L0 ops) u) <= total bk - available bk
  | None => count_isbn b (user_borrowings (run L0 ops) u) = 0
  end.
Proof.
  intros Hprov. destruct (run_inv L0 ops Hprov) as [_ Hb _].
  set (L := run L0 ops) in *. specialize (Hb b).
  assert (Hle : 0 <= count_isbn b (user_borrowings L u) <= held_count b (borrowings L)).
  { split; [apply count_isbn_nonneg|]. unfold user_borrowings.
    destruct (borrowings L !! u) as [l|] eqn:Hl; simpl.
    - by apply (held_count_ge b _ u).
    - apply held_count_nonneg. }
  destruct (books_db L !! b) as [bk|], (books_db L0 !! b) as [bk0|] eqn:Hbk0;
    try done.
  - destruct Hb as (_ & Htot & _ & Hsum).
    destruct Hprov as [_ Hprov]. specialize (Hprov b bk0 Hbk0). lia.
  - lia.
Qed.

Lemma borrowings_per_book_bounded_witness :
  provisioned initial_ledger ∧
  count_isbn "978-1"
    (user_borrowings
       (run initial_ledger [Issue 0 "01" "978-1"; Issue 0 "01" "978-1"]) "01")
  <= 5 - 3.
Proof.
  split; [apply initial_ledger_provisioned|].
  exact (borrowings_per_book_bounded initial_ledger
           [Issue 0 "01" "978-1"; Issue 0 "01" "978-1"] "01" "978-1"
           initial_ledger_provisioned).
Defined.

(** C4 as stated fails: after user 01 issues book 978-1 twice, the user
    holds two entries for it. *)
Lemma two_borrowings_of_one_book :
  ¬ one_borrowing_per_book
      (run initial_ledger [Issue 0 "01" "978-1"; Issue 0 "01" "978-1"]).
Proof.
  intros H. specialize (H "01" "978-1"). vm_compute in H. by apply H.
Qed.

(** C5.  For a known user and a known book with no copy available, Issue
    answers that no copies are left and returns the ledger as it was. *)
Theorem issue_without_copies now L u b (usr : user) (bk : book) :
  users_db L !! u = Some usr →
  books_db L !! b = Some bk →
  available bk = 0 →
  issue_book_logic now L u b = (L, ("OOPS!", NoCopiesLeft, 0)).
Proof.
  intros Hu Hb Hav. unfold issue_book_logic. by rewrite Hu, Hb, Hav.
Qed.

Lemma issue_without_copies_witness :
  let L := run initial_ledger [Issue 0 "02" "978-5"] in
  users_db L !! "02" = Some (User "Priya Verma" "Student" "5678") ∧
  books_db L !! "978-5" = Some (Book "Calculus II" 2 0) ∧
  issue_book_logic 7 L "02" "978-5" = (L, ("OOPS!", NoCopiesLeft, 0)).
Proof.
  split; [vm_compute; reflexivity|]. split; [vm_compute; reflexivity|].
  apply (issue_without_copies 7 _ "02" "978-5"
           (User "Priya Verma" "Student" "5678") (Book "Calculus II" 2 0)).
  - vm_compute. reflexivity.
  - vm_compute. reflexivity.
  - reflexivity.
Defined.

(** C6.  In a state reached from a provisioned start, Return tests in this
    order: an unknown book identifier gives "Book Not Found"; a known book
    and a user without entries gives "No borrowings."; a known book and a
    user with entries, none of them for the book, gives "You don't have this
    book."; each time the ledger comes back unchanged.  The outcome is
    RETURNED exactly when the user holds an entry for the book. *)
Theorem return_outcomes (L0 : ledger) (ops : list op) now u b :
  provisioned L0 →
  let L := run L0 ops in
  (books_db L !! b = None →
     return_book_logic now L u b = (L, ("ERROR", BookNotFound, 0))) ∧
  (is_Some (books_db L !! b) → user_borrowings L u = [] →
     return_book_logic now L u b = (L, ("ERROR", NoBorrowings, 0))) ∧
  (is_Some (books_db L !! b) → user_borrowings L u ≠ [] →
     (∀ x, x ∈ user_borrowings L u → isbn x ≠ b) →
     return_book_logic now L u b = (L, ("ERROR", DontHaveThisBook, 0))) ∧
  ((∃ x, x ∈ user_borrowings L u ∧ isbn x = b) ↔
   (∃ t f n, snd (return_book_logic now L u b) = ("RETURNED", ReturnedBook t f n, f))).
Proof.
  intros Hprov L. destruct (run_inv L0 ops Hprov) as [_ Hb Hne]. fold L in Hb, Hne.
  unfold return_book_logic, user_borrowings. repeat split.
  - by intros ->.
  - intros [bk ->]. destruct (borrowings L !! u) as [l|] eqn:Hl; [|done].
    simpl. intros ->. by destruct (Hne u [] Hl).
  - intros [bk ->]. destruct (borrowings L !! u) as [l|] eqn:Hl; [|done].
    simpl. intros _ Hnone. apply find_isbn_None in Hnone. by rewrite Hnone.
  - intros (x & Hx & Hxb).
    destruct (borrowings L !! u) as [l|] eqn:Hl; [|by inversion Hx]. simpl in Hx.
    pose proof (count_isbn_elem b l x Hx Hxb) as Hc1.
    pose proof (held_count_ge b _ u l Hl) as Hc2.
    specialize (Hb b).
    destruct (books_db L !! b) as [bk|].
    + destruct (find_isbn b l) as [y|] eqn:Hfind.
      * simpl. eauto.
      * exfalso. by apply (proj1 (find_isbn_None b l) Hfind x).
    + destruct (books_db L0 !! b); [done|]. lia.
  - intros (t & f & n & Hret).
    destruct (books_db L !! b) as [bk|]; [|discriminate Hret].
    destruct (borrowings L !! u) as [l|]; [|discriminate Hret].
    destruct (find_isbn b l) as [y|] eqn:Hfind; [|discriminate Hret].
    exists y. by apply find_isbn_Some.
Qed.

Lemma return_outcomes_witness :
  provisioned initial_ledger ∧
  ∃ t f n,
    snd (return_book_logic 0 (run initial_ledger [Issue 0 "01" "978-1"]) "01" "978-1")
    = ("RETURNED", ReturnedBook t f n, f).
Proof.
  split; [apply initial_ledger_provisioned|].
  apply (return_outcomes initial_ledger [Issue 0 "01" "978-1"] 0 "01" "978-1"
           initial_ledger_provisioned).
  exists (Borrowing "978-1" 0). split; [|reflexivity].
  vm_compute. left.
Defined.



(** The two moves behind C10: a first Issue makes the user a key, and the
    Return of the last entry removes the key. *)
Example borrowings_key_created_and_deleted :
  borrowings initial_ledger !! "01" = None ∧
  borrowings (run initial_ledger [Issue 0 "01" "978-1"]) !! "01"
  = Some [Borrowing "978-1" 0] ∧
  borrowings (run initial_ledger [Issue 0 "01" "978-1"; Return 0 "01" "978-1"]) !! "01"
  = None.
Proof. vm_compute. repeat split. Qed.

End Ledger.

(** ** The login machine *)

Section Login.

Implicit Types (s : session) (b : buttons).

Lemma zero_digits_replicate (digits : list Z) :
  zero_digits digits = replicate (List.length digits) 0.
Proof.
  unfold zero_digits. induction digits as [|d ds IH]; [done|].
  csimpl. by rewrite IH.
Qed.

Lemma bump_digit_length digits pos delta :
  List.length (bump_digit digits pos delta) = List.length digits.
Proof. unfold bump_digit. apply length_insert. Qed.

(** The cursor and digit lines of the PIN entry touch only [pin_pos] and
    the text of the PIN labels. *)
Lemma pin_inputs_frame b s :
  current_state (pin_inputs b s) = current_state s ∧
  current_user (pin_inputs b s) = current_user s ∧
  temp_user_id (pin_inputs b s) = temp_user_id s ∧
  db (pin_inputs b s) = db s ∧
  List.length (pin_digits (pin_inputs b s)) = List.length (pin_digits s).
Proof.
  destruct s, b. unfold pin_inputs, when. simpl.
  repeat match goal with
         | |- context [if ?c then _ else _] => destruct c; simpl
         end;
    rewrite ?bump_digit_length; done.
Qed.

(** ID entry: with the digits 0 and 1 on the labels, OK leads to the PIN
    entry for user 01, with the PIN labels at zero and the cursor on the
    first. *)
Example id_confirm_known_user :
  let s := set_id_digits [0; 1] (set_pin_digits [4; 2; 0; 7] initial_session) in
  tick (Hardware None None) 0 (Buttons false false true false false) [] s
  = Next (set_pin_digits [0; 0; 0; 0]
           (set_current_state 4 (set_pin_pos 0 (set_temp_user_id (Some "01") s)))).
Proof. vm_compute. reflexivity. Qed.

(** Up and Down wrap around: 9 goes to 0 and 0 goes to 9. *)
Example digits_wrap :
  bump_digit [9; 0] 0 1 = [0; 0] ∧ bump_digit [9; 0] 1 (-1) = [9; 9].
Proof. vm_compute. done. Qed.

(** C7.  In the PIN entry with OK pressed, the text of the PIN labels (after
    the cursor and digit buttons of the same pass) is compared with the
    password of the user chosen in the ID entry.  If they are equal the
    current user becomes that user and the state becomes the menu (0); if
    not, the state stays the PIN entry (4), every PIN label is back at zero
    and the cursor is at position 0, and nobody is logged in who was not. *)
Theorem pin_confirm hw now b events s uid (usr : user) :
  current_state s = 4 →
  btn_ok b = true →
  temp_user_id s = Some uid →
  users_db (db s) !! uid = Some usr →
  let entered := join_digits (pin_digits (pin_inputs b s)) in
  (entered = password usr →
     ∃ s', tick hw now b events s = Next s' ∧
           current_user s' = uid ∧ current_state s' = 0) ∧
  (entered ≠ password usr →
     ∃ s', tick hw now b events s = Next s' ∧
           current_state s' = 4 ∧
           pin_digits s' = replicate (List.length (pin_digits s)) 0 ∧
           pin_pos s' = 0 ∧
           current_user s' = current_user s).
Proof.
  intros Hst Hok Htemp Husr entered.
  destruct (pin_inputs_frame b s) as (Hst1 & Hcu1 & Htemp1 & Hdb1 & Hlen1).
  unfold tick. rewrite Hst. simpl. unfold tick_pin.
  rewrite Hok, Htemp1, Htemp, Hdb1, Husr. fold entered.
  split; intros Hcmp.
  - rewrite bool_decide_eq_true_2 by done. eexists. split; [reflexivity|].
    by destruct (pin_inputs b s).
  - rewrite bool_decide_eq_false_2 by done. eexists. split; [reflexivity|].
    rewrite <- Hlen1, <- zero_digits_replicate, <- Hcu1, <- Hst, <- Hst1.
    by destruct (pin_inputs b s).
Qed.

Lemma pin_confirm_witness :
  let s := set_pin_digits [9; 9; 9; 9]
             (set_temp_user_id (Some "01") (set_current_state 4 initial_session)) in
  let b := Buttons false false true false false in
  join_digits (pin_digits (pin_inputs b s)) = "9999" ∧
  users_db (db s) !! "01" = Some (User "Amit Sharma" "Student" "1234") ∧
  ∃ s', tick (Hardware None None) 0 b [] s = Next s' ∧
        current_state s' = 4 ∧
        pin_digits s' = [0; 0; 0; 0] ∧
        pin_pos s' = 0 ∧
        current_user s' = "".
Proof.
  split; [vm_compute; reflexivity|]. split; [vm_compute; reflexivity|].
  apply (pin_confirm (Hardware None None) 0 (Buttons false false true false false) []
           (set_pin_digits [9; 9; 9; 9]
              (set_temp_user_id (Some "01") (set_current_state 4 initial_session)))
           "01" (User "Amit Sharma" "Student" "1234")).
  - reflexivity.
  - reflexivity.
  - reflexivity.
  - vm_compute. reflexivity.
  - vm_compute. discriminate.
Defined.

(** The matching PIN logs the user in. *)
Example pin_confirm_match :
  let s := set_pin_digits [1; 2; 3; 4]
             (set_temp_user_id (Some "01") (set_current_state 4 initial_session)) in
  tick (Hardware None None) 0 (Buttons false false true false false) [] s
  = Next (set_current_state 0 (set_menu_index 0 (set_current_user "01" s))).
Proof. vm_compute. reflexivity. Qed.

End Login.

(** ** The scanner *)

Section Scanner.

Implicit Types (s : session) (b : buttons) (hw : hardware).

Lemma str_bytes_starts_with_b payload : ∃ rest, str_bytes payload = String "b" rest.
Proof. unfold str_bytes. eauto. Qed.

Lemma initial_books_db_no_b rest : initial_books_db !! String "b" rest = None.
Proof.
  unfold initial_books_db. rewrite !lookup_insert_ne by discriminate.
  apply lookup_empty.
Qed.

(** Issue and Return never add or drop a catalogue entry. *)
Lemma catalogue_fixed (ops : list op) (k : string) :
  initial_books_db !! k = None → books_db (run initial_ledger ops) !! k = None.
Proof.
  intros Hk. destruct (run_inv initial_ledger ops initial_ledger_provisioned) as [_ Hb _].
  specialize (Hb k). simpl in Hb. rewrite Hk in Hb.
  by destruct (books_db (run initial_ledger ops) !! k).
Qed.

Lemma last_payload_wins (d : option string) (payloads : list string) (payload : string) :
  foldl (fun _ p => Some (decode_payload p)) d (payloads ++ [payload])
  = Some (decode_payload payload).
Proof. by rewrite foldl_app. Qed.

Example utf8_valid_examples :
  utf8_valid "978-1" = true ∧
  utf8_valid (String (ascii_of_nat 195) (String (ascii_of_nat 169) "")) = true ∧
  utf8_valid (String (ascii_of_nat 192) (String (ascii_of_nat 128) "")) = false ∧
  utf8_valid (String (ascii_of_nat 237) (String (ascii_of_nat 160) (String (ascii_of_nat 128) ""))) = false ∧
  utf8_valid (String (ascii_of_nat 255) "") = false.
Proof. vm_compute. repeat split. Qed.

Example str_bytes_examples :
  str_bytes (String (ascii_of_nat 255) "") = "b'\xff'" ∧
  str_bytes (String (ascii_of_nat 10) (String (ascii_of_nat 200) "9")) = "b'\n\xc89'".
Proof. vm_compute. repeat split. Qed.

(** With the camera object there but no decoder, the [try] body raises
    after the frame is taken; the loop ends with nothing found. *)
Example scan_without_decoder :
  perform_scan (Hardware (Some EspCamera) None) [Frame ["978-1"] false]
  = Some (None, 1%nat).
Proof. reflexivity. Qed.

(** A scanned catalogue identifier is passed on as it is. *)
Example scan_known_book :
  perform_scan (Hardware (Some EspCamera) (Some QRDecoder))
    [Frame [] false; Frame ["978-3"] false]
  = Some (Some "978-3", 2%nat).
Proof. vm_compute. reflexivity. Qed.

(** C8 as stated fails: when the set-up raises after the camera object was
    created, [cam] is set and only the decoder is missing, and a scan
    request takes a frame before it ends. *)
Lemma failed_setup_scan_takes_a_frame :
  ¬ (∀ w events found takes,
       snd (camera_setup w) = true →
       perform_scan (fst (camera_setup w)) events = Some (found, takes) →
       takes = 0%nat).
Proof.
  intros H.
  specialize (H (SetupSteps true true false) [Frame ["978-1"] false] None 1%nat).
  discriminate H; reflexivity.
Qed.

(** C8, as the code has it.  After a set-up that failed, whichever step
    raised, a scan request returns [None] and the scan state moves on to the
    manual selection (state 1) with the list cursor at 0, exactly as it does
    when a working scanner is cancelled with the left button.  It calls
    [cam.take] once when the camera object was created and not at all when
    it was not; in that case no pass of the loop is entered. *)
Theorem scan_after_failed_setup w now b e rest s (mode : string) :
  snd (camera_setup w) = true →
  current_state s = 6 →
  current_mode s = Some mode →
  let hw := fst (camera_setup w) in
  perform_scan hw (e :: rest)
  = Some (None, if camera_created w then 1%nat else 0%nat) ∧
  (camera_created w = false → ∀ events, perform_scan hw events = Some (None, 0%nat)) ∧
  tick hw now b (e :: rest) s = Next (set_current_state 1 (set_book_index 0 s)) ∧
  tick working_camera now b (Frame [] true :: rest) s = tick hw now b (e :: rest) s.
Proof.
  intros Hfail Hst Hmode.
  assert (Hscan : perform_scan (fst (camera_setup w)) (e :: rest)
                  = Some (None, if camera_created w then 1%nat else 0%nat)).
  { destruct w as [[] [] []]; try discriminate Hfail; by destruct e. }
  cbv zeta. split; [exact Hscan|]. split.
  - intros Hcam events. unfold camera_setup. by rewrite Hcam.
  - unfold tick, tick_scan. rewrite Hscan, Hst, Hmode. simpl. done.
Qed.

Lemma scan_after_failed_setup_witness :
  let w := SetupSteps true true false in
  let s := set_current_mode (Some "ISSUE") (set_current_state 6 initial_session) in
  let b := Buttons false false false false false in
  let e := Frame ["978-1"] false in
  snd (camera_setup w) = true ∧ current_state s = 6 ∧ current_mode s = Some "ISSUE" ∧
  perform_scan (fst (camera_setup w)) [e] = Some (None, 1%nat) ∧
  (camera_created w = false →
   ∀ events, perform_scan (fst (camera_setup w)) events = Some (None, 0%nat)) ∧
  tick (fst (camera_setup w)) 0 b [e] s
  = Next (set_current_state 1 (set_book_index 0 s)) ∧
  tick working_camera 0 b [Frame [] true] s = tick (fst (camera_setup w)) 0 b [e] s.
Proof.
  do 3 (split; [reflexivity|]).
  apply (scan_after_failed_setup (SetupSteps true true false) 0
           (Buttons false false false false false) (Frame ["978-1"] false) []
           (set_current_mode (Some "ISSUE") (set_current_state 6 initial_session))
           "ISSUE"); reflexivity.
Defined.

(** C9.  Decoding a scanned payload never raises out of the scan loop:
    whatever the bytes, the pass of the loop goes on with a string in
    [found_data].  That string is the payload itself when it is UTF-8; when
    it is not, it is the text of the bytes literal, the scan returns that
    text, no catalogue identifier is equal to it in any state reached from
    the start, and the scan state moves on to the menu (state 0), the path
    of a code that is not in the database. *)
Theorem undecodable_payload_unmatched (ops : list op) (payload : string) :
  (∀ q d n payloads left_pressed rest,
     scan_loop (Some q) d n (Frame (payloads ++ [payload]) left_pressed :: rest)
     = let found_data := Some (decode_payload payload) in
       if truthy found_data then Some (found_data, S n)
       else if left_pressed then Some (found_data, S n)
       else scan_loop (Some q) found_data (S n) rest) ∧
  (bytes_decode_utf8 payload = Some payload → decode_payload payload = payload) ∧
  (bytes_decode_utf8 payload = None →
   decode_payload payload = str_bytes payload ∧
   books_db (run initial_ledger ops) !! decode_payload payload = None ∧
   ∀ hw c q now b s payloads left_pressed rest,
     cam hw = Some c → qrdecoder hw = Some q →
     perform_scan hw (Frame (payloads ++ [payload]) left_pressed :: rest)
     = Some (Some (str_bytes payload), 1%nat) ∧
     (current_state s = 6 → db s = run initial_ledger ops →
      tick hw now b (Frame (payloads ++ [payload]) left_pressed :: rest) s
      = Next (set_current_state 0 s))).
Proof.
  split; [|split].
  { intros q d n payloads left_pressed rest. simpl.
    by rewrite last_payload_wins. }
  { intros Hdec. unfold decode_payload. by rewrite Hdec. }
  intros Hdec.
  assert (Hfall : decode_payload payload = str_bytes payload).
  { unfold decode_payload. by rewrite Hdec. }
  destruct (str_bytes_starts_with_b payload) as [tl Htl].
  assert (Hnone : books_db (run initial_ledger ops) !! str_bytes payload = None).
  { rewrite Htl. apply catalogue_fixed, initial_books_db_no_b. }
  split; [done|]. split; [by rewrite Hfall|].
  intros hw c q now b s payloads left_pressed rest Hcam Hqr.
  assert (Hscan : perform_scan hw (Frame (payloads ++ [payload]) left_pressed :: rest)
                  = Some (Some (str_bytes payload), 1%nat)).
  { unfold perform_scan. rewrite Hcam, Hqr. simpl.
    rewrite last_payload_wins, Hfall, Htl. reflexivity. }
  split; [done|]. intros Hst Hdb.
  unfold tick, tick_scan. rewrite Hst, Hscan. simpl.
  rewrite Htl. simpl. rewrite <- Htl, Hdb, Hnone. reflexivity.
Qed.

Lemma undecodable_payload_unmatched_witness :
  let payload := String (ascii_of_nat 255) "" in
  bytes_decode_utf8 payload = None ∧
  decode_payload payload = "b'\xff'" ∧
  books_db (run initial_ledger [Issue 0 "01" "978-1"]) !! decode_payload payload = None.
Proof.
  split; [vm_compute; reflexivity|].
  destruct (undecodable_payload_unmatched [Issue 0 "01" "978-1"]
              (String (ascii_of_nat 255) "")) as (_ & _ & Hbad).
  destruct Hbad as (Hfall & Hnone & _).
  - vm_compute. reflexivity.
  - split; [exact Hfall | exact Hnone].
Defined.

(** A payload that is not UTF-8, scanned in the scan state: the menu is next. *)
Example scan_undecodable_payload :
  tick (Hardware (Some EspCamera) (Some QRDecoder)) 0
    (Buttons false false false false false)
    [Frame [String (ascii_of_nat 255) "978-1"] false]
    (set_current_mode (Some "ISSUE") (set_current_state 6 initial_session))
  = Next (set_current_state 0
            (set_current_mode (Some "ISSUE") (set_current_state 6 initial_session))).
Proof. vm_compute. reflexivity. Qed.

End Scanner.

(** ** The main loop as a whole *)

Section MainLoop.

Implicit Types (s : session) (b : buttons) (hw : hardware).

Lemma issue_book_logic_users now (L : ledger) u k :
  users_db (fst (issue_book_logic now L u k)) = users_db L.
Proof. unfold issue_book_logic. by repeat case_match. Qed.

Lemma return_book_logic_users now (L : ledger) u k :
  users_db (fst (return_book_logic now L u k)) = users_db L.
Proof. unfold return_book_logic. by repeat case_match. Qed.

Lemma initial_session_ok : session_ok initial_session.
Proof. split; simpl; try done; try lia; intros; lia. Qed.

Lemma zero_digits_length (digits : list Z) :
  List.length (zero_digits digits) = List.length digits.
Proof. unfold zero_digits. apply length_fmap. Qed.

Ltac split_ifs :=
  repeat match goal with
         | |- context [if ?c then _ else _] => destruct c eqn:?; simpl
         end.

Ltac bool_facts :=
  repeat match goal with
         | H : (_ && _)%bool = true |- _ => apply andb_prop in H; destruct H
         | H : (_ && _)%bool = false |- _ => apply andb_false_iff in H
         | H : (_ <? _) = true |- _ => apply Z.ltb_lt in H
         | H : (_ <? _) = false |- _ => apply Z.ltb_ge in H
         | H : (_ =? _) = true |- _ => apply Z.eqb_eq in H
         | H : (_ =? _) = false |- _ => apply Z.eqb_neq in H
         end.

Ltac ok_fields :=
  split; simpl;
  rewrite ?zero_digits_length, ?bump_digit_length;
  try done; try lia; try (intros; lia);
  try (intros _; eexists; split; [reflexivity|]; by eexists);
  try (intros; by eexists).

Lemma tick_id_ok b s :
  session_ok s → current_state s = 3 →
  ∃ s', tick_id b s = Next s' ∧ session_ok s'.
Proof.
  intros [] Hst. destruct s, b. simpl in *. subst.
  unfold tick_id, id_inputs, when. simpl.
  split_ifs; simpl in *; bool_facts; try case_match; eexists;
    (split; [reflexivity|]); ok_fields.
Qed.

Lemma tick_pin_ok b s :
  session_ok s → current_state s = 4 →
  ∃ s', tick_pin b s = Next s' ∧ session_ok s'.
Proof.
  intros [] Hst. destruct s, b. simpl in *. subst.
  destruct ok_temp0 as (uid & -> & [usr Husr]); [done|].
  unfold tick_pin, pin_inputs, when. simpl.
  split_ifs; simpl in *; rewrite ?Husr; split_ifs; bool_facts; eexists;
    (split; [reflexivity|]); ok_fields.
Qed.

Lemma mod_index_bound (i n : Z) : 0 < n → 0 <= i mod n <= n - 1.
Proof. intros Hn. pose proof (Z.mod_pos_bound i n Hn). lia. Qed.

Lemma tick_menu_ok b s :
  session_ok s → current_state s = 0 →
  ∃ s', tick_menu b s = Next s' ∧ session_ok s'.
Proof.
  intros [] Hst. destruct s, b. simpl in *. subst.
  unfold tick_menu, when. simpl.
  split_ifs; simpl in *; bool_facts; eexists; (split; [reflexivity|]);
    ok_fields; by apply (mod_index_bound _ 3).
Qed.

Lemma tick_scan_ok hw events s :
  session_ok s → current_state s = 6 →
  tick_scan hw events s = Scanning ∨
  ∃ s', tick_scan hw events s = Next s' ∧ session_ok s'.
Proof.
  intros [] Hst. destruct s. simpl in *. subst.
  destruct ok_mode0 as [mode ->]; [by left|].
  unfold tick_scan. destruct (perform_scan hw events) as [[code n]|]; [|by left].
  right. simpl. split_ifs; try case_match; eexists; (split; [reflexivity|]);
    ok_fields.
Qed.

Lemma book_keys_lookup (i : Z) :
  0 <= i <= 4 → is_Some (book_keys !! Z.to_nat i).
Proof. intros Hi. apply lookup_lt_is_Some. simpl. lia. Qed.

Lemma tick_select_ok b s :
  session_ok s → current_state s = 1 →
  ∃ s', tick_select b s = Next s' ∧ session_ok s'.
Proof.
  intros [] Hst. destruct s, b. simpl in *. subst.
  destruct ok_mode0 as [mode ->]; [tauto|].
  unfold tick_select, when. simpl.
  split_ifs; simpl in *;
    try match goal with
        | |- context [book_keys !! Z.to_nat ?i] =>
          let Hk := fresh in
          assert (Hk : 0 <= i <= 4) by (try apply (mod_index_bound _ 5); lia);
          destruct (book_keys_lookup i Hk) as [key ->]
        end;
    eexists; (split; [reflexivity|]); ok_fields;
    by apply (mod_index_bound _ 5).
Qed.

Ltac ok_record :=
  split;
  cbn [current_state users_db db temp_user_id current_mode qr_group id_pos
       pin_pos menu_index book_index id_digits pin_digits];
  try done; try lia; try congruence; try (intros; lia);
  try (intros; by eexists).

Lemma tick_confirm_ok now b s :
  session_ok s → current_state s = 5 →
  ∃ s', tick_confirm now b s = Next s' ∧ session_ok s'.
Proof.
  intros [] Hst. destruct s, b. simpl in *. subst.
  destruct ok_mode0 as [mode ->]; [tauto|].
  unfold tick_confirm.
  destruct btn_up0, btn_down0, btn_ok0;
    cbn [when set_confirm_index confirm_index db current_user selected_isbn
         current_mode btn_up btn_down btn_ok Z.eqb Pos.eqb];
    try destruct (confirm_index0 =? 0);
    try destruct (bool_decide (mode = "ISSUE"));
    try match goal with
        | |- context [issue_book_logic ?n ?d ?u ?k] =>
          pose proof (issue_book_logic_users n d u k);
          destruct (issue_book_logic n d u k) as [? [[? ?] ?]]
        | |- context [return_book_logic ?n ?d ?u ?k] =>
          pose proof (return_book_logic_users n d u k);
          destruct (return_book_logic n d u k) as [? [[? ?] ?]]
        end;
    cbn [fst set_db set_current_fine set_current_state] in *;
    eexists; (split; [reflexivity|]); ok_record.
Qed.

Lemma tick_result_screen_ok b s :
  session_ok s → current_state s = 2 →
  ∃ s', tick_result_screen b s = Next s' ∧ session_ok s'.
Proof.
  intros [] Hst. destruct s, b. simpl in *. subst.
  destruct ok_mode0 as [mode ->]; [tauto|].
  unfold tick_result_screen. cbn [btn_ok current_mode current_fine].
  destruct btn_ok0; [|eexists; split; [reflexivity|]; by split].
  destruct (bool_decide (mode = "RETURN") && (0 <? current_fine0));
    cbn [set_current_state set_qr_group qr_group current_fine];
    (eexists; split; [reflexivity|]); ok_record.
  intros _. by destruct qr_group0.
Qed.

Lemma tick_qr_ok b s :
  session_ok s → current_state s = 7 →
  ∃ s', tick_qr b s = Next s' ∧ session_ok s'.
Proof.
  intros [] Hst. destruct s, b. simpl in *. subst.
  unfold tick_qr. cbn [btn_ok qr_group].
  destruct btn_ok0; [|eexists; split; [reflexivity|]; by split].
  destruct qr_group0 as [|g gs]; [by destruct ok_qr0|].
  cbn [set_current_state set_qr_group].
  eexists. split; [reflexivity|]. ok_record.
Qed.

(** From a well-formed session, a pass of the loop raises nothing: it is
    still scanning, or it ends in a well-formed session. *)
Theorem tick_ok hw now b events s :
  session_ok s →
  tick hw now b events s = Scanning ∨
  ∃ s', tick hw now b events s = Next s' ∧ session_ok s'.
Proof.
  intros Hok. unfold tick.
  repeat match goal with
         | |- context [current_state s =? ?k] =>
           destruct (Z.eqb_spec (current_state s) k)
         end;
    eauto using tick_id_ok, tick_pin_ok, tick_menu_ok, tick_scan_ok,
      tick_select_ok, tick_confirm_ok, tick_result_screen_ok, tick_qr_ok.
Qed.

(** X7.  The program never stops with an uncaught exception: whatever the
    buttons and the camera do, the passes from the start end in a
    well-formed session or inside a scan that has not finished. *)
Theorem main_loop_never_raises hw (inputs : list pass_input) :
  run_loop hw inputs initial_session = Scanning ∨
  ∃ s', run_loop hw inputs initial_session = Next s' ∧ session_ok s'.
Proof.
  generalize initial_session initial_session_ok.
  induction inputs as [|i rest IH]; intros s Hok; simpl; [eauto|].
  destruct (tick_ok hw (pass_now i) (pass_buttons i) (pass_events i) s Hok)
    as [-> | (s' & -> & Hok')]; [by left|].
  by apply IH.
Qed.

(** Logging in as user 01 from the start: right, down, up twice (wrapping
    past 9 and back to 1) on the second ID digit, OK, then the PIN 1234
    entered digit by digit and OK. *)
Example login_from_start :
  let none := Buttons false false false false false in
  let up := Buttons true false false false false in
  let down := Buttons false true false false false in
  let right := Buttons false false false false true in
  let ok := Buttons false false true false false in
  let press b := PassInput 0 b [] in
  ∃ s', run_loop (Hardware None None)
          (press <$> [right; down; up; up; ok;
                      up; right; up; up; right; up; up; up; right;
                      up; up; up; up; ok])
          initial_session = Next s' ∧
        current_state s' = 0 ∧ current_user s' = "01".
Proof. eexists. vm_compute. repeat split. Qed.

End MainLoop.

(** ** More on the lending ledger *)

Section LedgerMore.

Implicit Types (L : ledger) (u b : string).

Lemma run_app L (ops1 ops2 : list op) :
  run L (ops1 ++ ops2) = run (run L ops1) ops2.
Proof. unfold run. apply foldl_app. Qed.

Lemma elem_of_remove (x y : borrowing) (l : list borrowing) :
  x ∈ remove y l → x ∈ l.
Proof.
  induction l as [|z l IH]; simpl; [done|].
  case_decide.
  - intros Hx. by right.
  - intros Hx. apply list_elem_of_In in Hx. destruct Hx as [->|Hx]; [left|].
    right. apply IH. by apply list_elem_of_In.
Qed.

(** X1.  Copies are neither lost nor made: from a provisioned start, after any
    operations, a catalogue book keeps its title and total, and its
    available count plus the number of entries for it over all users is the
    available count it started with; an identifier outside the catalogue
    stays outside and has no entry; the user table is untouched. *)
Theorem copies_conserved (L0 : ledger) (ops : list op) b :
  provisioned L0 →
  users_db (run L0 ops) = users_db L0 ∧
  match books_db L0 !! b with
  | Some bk0 =>
      ∃ bk, books_db (run L0 ops) !! b = Some bk ∧
            title bk = title bk0 ∧ total bk = total bk0 ∧
            available bk + held_count b (borrowings (run L0 ops)) = available bk0
  | None =>
      books_db (run L0 ops) !! b = None ∧ held_count b (borrowings (run L0 ops)) = 0
  end.
Proof.
  intros Hprov. destruct (run_inv L0 ops Hprov) as [Hu Hb _].
  split; [done|]. specialize (Hb b).
  destruct (books_db (run L0 ops) !! b) as [bk|], (books_db L0 !! b) as [bk0|];
    try done.
  exists bk. tauto.
Qed.

Lemma copies_conserved_witness :
  provisioned initial_ledger ∧
  ∃ bk, books_db (run initial_ledger
                    [Issue 0 "01" "978-3"; Issue 5 "02" "978-3"; Return 9 "01" "978-3"])
        !! "978-3" = Some bk ∧
        title bk = "Data Science" ∧ total bk = 4 ∧
        available bk
        + held_count "978-3"
            (borrowings (run initial_ledger
               [Issue 0 "01" "978-3"; Issue 5 "02" "978-3"; Return 9 "01" "978-3"]))
        = 2.
Proof.
  split; [apply initial_ledger_provisioned|].
  exact (proj2 (copies_conserved initial_ledger
                  [Issue 0 "01" "978-3"; Issue 5 "02" "978-3"; Return 9 "01" "978-3"]
                  "978-3" initial_ledger_provisioned)).
Defined.

(** X2.  An operation that does not report success changes nothing, and the two
    operations succeed exactly in these cases: Issue for a known user and a
    catalogue book with a copy available, Return for a catalogue book of
    which the user has an entry. *)
Theorem failed_operation_changes_nothing L (o : op) :
  (¬ succeeded (apply_op L o).2 → step L o = L) ∧
  (succeeded (apply_op L o).2 ↔
   match o with
   | Issue _ u b =>
       is_Some (users_db L !! u) ∧
       ∃ bk, books_db L !! b = Some bk ∧ 0 < available bk
   | Return _ u b =>
       is_Some (books_db L !! b) ∧
       ∃ x, x ∈ user_borrowings L u ∧ isbn x = b
   end).
Proof.
  unfold succeeded, step, user_borrowings.
  destruct o as [now u b|now u b]; simpl.
  - unfold issue_book_logic.
    destruct (users_db L !! u) as [usr|]; simpl.
    2: { split; [done|]. split; [by intros [|]|]. by intros [[? [=]] _]. }
    destruct (books_db L !! b) as [bk|]; simpl.
    2: { split; [done|]. split; [by intros [|]|]. by intros [_ (? & [=] & _)]. }
    destruct (Z.ltb_spec 0 (available bk)); simpl.
    + split; [intros H'; destruct H'; by left|]. split; [|by left]. eauto.
    + split; [done|]. split; [by intros [|]|].
      intros [_ (bk' & [= <-] & ?)]. lia.
  - unfold return_book_logic.
    destruct (books_db L !! b) as [bk|]; simpl.
    2: { split; [done|]. split; [by intros [|]|]. by intros [[? [=]] _]. }
    destruct (borrowings L !! u) as [held|]; simpl.
    2: { split; [done|]. split; [by intros [|]|].
         intros [_ (x & Hx & _)]. inversion Hx. }
    destruct (find_isbn b held) as [x|] eqn:Hfind; simpl.
    + split; [intros H'; destruct H'; by right|]. split; [|by right].
      intros _. split; [done|]. exists x. by apply find_isbn_Some.
    + split; [done|]. split; [by intros [|]|].
      intros [_ (x & Hx & Hb)]. exfalso.
      by apply (proj1 (find_isbn_None b held) Hfind x).
Qed.

Lemma remove_last_fresh (x : borrowing) (l : list borrowing) :
  x ∉ l → remove x (l ++ [x]) = l.
Proof.
  induction l as [|y l IH]; simpl; intros Hx.
  - by rewrite decide_True.
  - rewrite decide_False by (intros ->; apply Hx; left).
    rewrite IH; [done|]. intros Hin. apply Hx. by right.
Qed.

(** X3.  Return settles the first entry the user has for the book, the one
    issued earliest: the entries before it are for other books, the user's
    other entries keep their order, the other users' lists are untouched,
    and the fine is worked out from that entry's issue time. *)
Theorem return_removes_first now L u b (L' : ledger) (r : result) :
  return_book_logic now L u b = (L', r) →
  succeeded r →
  ∃ l1 x l2,
    user_borrowings L u = l1 ++ x :: l2 ∧
    isbn x = b ∧ (∀ y, y ∈ l1 → isbn y ≠ b) ∧
    user_borrowings L' u = l1 ++ l2 ∧
    (∀ u', u' ≠ u → borrowings L' !! u' = borrowings L !! u') ∧
    r.2 = Z.max 0 (calculate_days now (issue_time x) - 15) * 15.
Proof.
  unfold return_book_logic, succeeded, user_borrowings.
  destruct (books_db L !! b) as [bk|]; [|by intros [= <- <-] [|]].
  destruct (borrowings L !! u) as [held|] eqn:Hheld; [|by intros [= <- <-] [|]].
  destruct (find_isbn b held) as [x|] eqn:Hfind; [|by intros [= <- <-] [|]].
  intros [= <- <-] _. simpl.
  destruct (remove_found b held x Hfind) as (l1 & l2 & -> & Hrem & Hl1).
  destruct (find_isbn_Some _ _ _ Hfind) as [_ Hxb].
  exists l1, x, l2. rewrite Hrem. repeat split; try done.
  - destruct (l1 ++ l2) eqn:Hl; [by rewrite lookup_delete_eq|].
    by rewrite lookup_insert_eq.
  - intros u' Hne. destruct (l1 ++ l2).
    + by rewrite lookup_delete_ne.
    + by rewrite lookup_insert_ne.
Qed.

Lemma return_removes_first_witness :
  let L := run initial_ledger
             [Issue 0 "01" "978-2"; Issue 1 "01" "978-1"; Issue 2 "01" "978-1"] in
  succeeded (return_book_logic 3 L "01" "978-1").2 ∧
  ∃ l1 x l2,
    user_borrowings L "01" = l1 ++ x :: l2 ∧
    isbn x = "978-1" ∧ (∀ y, y ∈ l1 → isbn y ≠ "978-1") ∧
    user_borrowings (return_book_logic 3 L "01" "978-1").1 "01" = l1 ++ l2 ∧
    (∀ u', u' ≠ "01" →
       borrowings (return_book_logic 3 L "01" "978-1").1 !! u' = borrowings L !! u') ∧
    (return_book_logic 3 L "01" "978-1").2.2
    = Z.max 0 (calculate_days 3 (issue_time x) - 15) * 15.
Proof.
  assert (Hs : succeeded
                 (return_book_logic 3
                    (run initial_ledger
                       [Issue 0 "01" "978-2"; Issue 1 "01" "978-1"; Issue 2 "01" "978-1"])
                    "01" "978-1").2) by (right; reflexivity).
  split; [exact Hs|].
  exact (return_removes_first 3 _ "01" "978-1" _ _ (surjective_pairing _) Hs).
Defined.

(** X4.  When the user holds no entry for the book, Issue followed by Return of
    the same book, at whatever times, gives back the very ledger it started
    from: counts, lists and keys. *)
Theorem issue_return_identity now now' L u b (usr : user) (bk : book) :
  users_db L !! u = Some usr →
  books_db L !! b = Some bk →
  0 < available bk →
  (∀ x, x ∈ user_borrowings L u → isbn x ≠ b) →
  borrowings L !! u ≠ Some [] →
  (return_book_logic now' (issue_book_logic now L u b).1 u b).1 = L.
Proof.
  intros Hu Hb Hav Hnone Hne. unfold issue_book_logic. rewrite Hu, Hb.
  apply Z.ltb_lt in Hav. rewrite Hav. simpl.
  unfold return_book_logic. simpl. rewrite !lookup_insert_eq.
  fold (user_borrowings L u). rewrite find_isbn_app.
  rewrite (proj2 (find_isbn_None b (user_borrowings L u)) Hnone).
  simpl. rewrite decide_True by done.
  rewrite remove_last_fresh.
  2: { intros Hin. by apply (Hnone _ Hin). }
  destruct L as [us bs brs]. simpl in *. f_equal.
  - rewrite insert_insert_eq. apply insert_id. rewrite Hb.
    destruct bk as [t tot av]. unfold set_available. simpl. do 2 f_equal. lia.
  - unfold user_borrowings in *. simpl in *.
    destruct (brs !! u) as [[|x l]|] eqn:Hl; simpl; [done| |].
    + rewrite insert_insert_eq. by apply insert_id.
    + rewrite delete_insert_eq. by apply delete_id.
Qed.

Lemma issue_return_identity_witness :
  let L := run initial_ledger [Issue 0 "01" "978-2"] in
  (return_book_logic 9 (issue_book_logic 4 L "01" "978-1").1 "01" "978-1").1 = L.
Proof.
  apply (issue_return_identity 4 9 _ "01" "978-1"
           (User "Amit Sharma" "Student" "1234") (Book "Python Basics" 5 5)).
  - vm_compute. reflexivity.
  - vm_compute. reflexivity.
  - simpl. lia.
  - intros x Hx. vm_compute in Hx. apply list_elem_of_In in Hx.
    destruct Hx as [<-|[]]. discriminate.
  - vm_compute. discriminate.
Defined.

Lemma issue_book_logic_issued_at c L u b :
  all_issued_at c L → all_issued_at c (issue_book_logic c L u b).1.
Proof.
  intros Hall. unfold issue_book_logic.
  destruct (users_db L !! u); [|done].
  destruct (books_db L !! b) as [bk|]; [|done].
  destruct (0 <? available bk); [|done].
  intros u' l x. simpl. destruct (decide (u = u')) as [<-|Hne].
  - rewrite lookup_insert_eq. intros [= <-] Hx.
    apply list_elem_of_In, in_app_or in Hx. destruct Hx as [Hx|[<-|[]]]; [|done].
    destruct (borrowings L !! u) as [l|] eqn:Hl; simpl in Hx; [|done].
    apply (Hall u l x Hl). by apply list_elem_of_In.
  - rewrite lookup_insert_ne by done. apply Hall.
Qed.

Lemma return_book_logic_issued_at c now L u b :
  all_issued_at c L → all_issued_at c (return_book_logic now L u b).1.
Proof.
  intros Hall. unfold return_book_logic.
  destruct (books_db L !! b) as [bk|]; [|done].
  destruct (borrowings L !! u) as [held|] eqn:Hheld; [|done].
  destruct (find_isbn b held) as [y|]; [|done].
  intros u' l x. simpl. destruct (remove y held) as [|z held'] eqn:Hrem.
  - destruct (decide (u = u')) as [<-|Hne].
    + by rewrite lookup_delete_eq.
    + rewrite lookup_delete_ne by done. apply Hall.
  - destruct (decide (u = u')) as [<-|Hne].
    + rewrite lookup_insert_eq. intros [= <-] Hx.
      apply (Hall u held x Hheld), (elem_of_remove x y). by rewrite Hrem.
    + rewrite lookup_insert_ne by done. apply Hall.
Qed.

Lemma run_issued_at c L (ops : list op) :
  Forall (fun o => op_time o = c) ops →
  all_issued_at c L → all_issued_at c (run L ops).
Proof.
  intros Hops. revert L. induction Hops as [|o ops Ho _ IH]; intros L HL; [done|].
  simpl. apply IH. destruct o; simpl in Ho; subst; unfold step; simpl.
  - by apply issue_book_logic_issued_at.
  - by apply return_book_logic_issued_at.
Qed.

(** X5.  With the clock standing still, as the script's constant [now_time]
    does, every Return that succeeds charges 30: each entry was issued at
    that reading, and the test delay alone makes it seventeen days old. *)
Theorem constant_clock_fine (L0 : ledger) (ops : list op) c u b
    (L' : ledger) (hdr t : string) (f n f' : Z) :
  provisioned L0 →
  Forall (fun o => op_time o = c) ops →
  return_book_logic c (run L0 ops) u b = (L', (hdr, ReturnedBook t f n, f')) →
  f = 30 ∧ f' = 30.
Proof.
  intros [Hempty _] Hops Hret.
  assert (Hall : all_issued_at c (run L0 ops)).
  { apply run_issued_at; [done|]. intros u' l x. by rewrite Hempty, lookup_empty. }
  revert Hret. unfold return_book_logic.
  destruct (books_db (run L0 ops) !! b) as [bk|]; [|intros [=]].
  destruct (borrowings (run L0 ops) !! u) as [held|] eqn:Hheld; [|intros [=]].
  destruct (find_isbn b held) as [x|] eqn:Hfind; [|intros [=]].
  destruct (find_isbn_Some _ _ _ Hfind) as [Hx _].
  rewrite (Hall u held x Hheld Hx), calculate_days_same.
  intros [= _ _ _ <- _ <-]. done.
Qed.

Lemma constant_clock_fine_witness :
  provisioned initial_ledger ∧
  Forall (fun o => op_time o = 7) [Issue 7 "01" "978-1"; Issue 7 "02" "978-4"] ∧
  return_book_logic 7 (run initial_ledger [Issue 7 "01" "978-1"; Issue 7 "02" "978-4"])
    "02" "978-4"
  = (run initial_ledger [Issue 7 "01" "978-1"],
     ("RETURNED", ReturnedBook "ESP32 Guide" 30 6, 30)) ∧
  30 = 30 ∧ 30 = 30.
Proof.
  assert (Hops : Forall (fun o => op_time o = 7)
                   [Issue 7 "01" "978-1"; Issue 7 "02" "978-4"])
    by (repeat constructor).
  assert (Hret : return_book_logic 7
                   (run initial_ledger [Issue 7 "01" "978-1"; Issue 7 "02" "978-4"])
                   "02" "978-4"
                 = (run initial_ledger [Issue 7 "01" "978-1"],
                    ("RETURNED", ReturnedBook "ESP32 Guide" 30 6, 30)))
    by (vm_compute; reflexivity).
  split; [apply initial_ledger_provisioned|]. split; [exact Hops|].
  split; [exact Hret|].
  exact (constant_clock_fine initial_ledger _ 7 "02" "978-4" _ _ _ _ _ _
           initial_ledger_provisioned Hops Hret).
Defined.

Lemma step_borrowers_known L (o : op) :
  borrowers_known L → borrowers_known (step L o).
Proof.
  intros Hk. unfold step. destruct o as [now u b|now u b]; simpl.
  - unfold issue_book_logic.
    destruct (users_db L !! u) as [usr|] eqn:Hu; [|done].
    destruct (books_db L !! b) as [bk|]; [|done].
    destruct (0 <? available bk); [|done].
    intros u'. simpl. destruct (decide (u = u')) as [<-|Hne].
    + by rewrite Hu.
    + rewrite lookup_insert_ne by done. apply Hk.
  - unfold return_book_logic.
    destruct (books_db L !! b) as [bk|]; [|done].
    destruct (borrowings L !! u) as [held|] eqn:Hheld; [|done].
    destruct (find_isbn b held) as [y|]; [|done].
    intros u'. simpl. destruct (remove y held).
    + destruct (decide (u = u')) as [<-|Hne].
      * rewrite lookup_delete_eq. by intros [? [=]].
      * rewrite lookup_delete_ne by done. apply Hk.
    + destruct (decide (u = u')) as [<-|Hne].
      * intros _. apply Hk. by rewrite Hheld.
      * rewrite lookup_insert_ne by done. apply Hk.
Qed.

Lemma run_borrowers_known L (ops : list op) :
  borrowers_known L → borrowers_known (run L ops).
Proof.
  revert L. induction ops as [|o ops IH]; intros L HL; [done|].
  simpl. by apply IH, step_borrowers_known.
Qed.

(** X6.  Entries never dangle: in every state reached from a provisioned start,
    whoever holds an entry is a user of the user table, and the entry names
    a book of the catalogue. *)
Theorem borrowings_refer_to_catalogue (L0 : ledger) (ops : list op) u (x : borrowing) :
  provisioned L0 →
  x ∈ user_borrowings (run L0 ops) u →
  is_Some (users_db (run L0 ops) !! u) ∧
  is_Some (books_db (run L0 ops) !! isbn x).
Proof.
  intros Hprov Hx. unfold user_borrowings in Hx.
  destruct (borrowings (run L0 ops) !! u) as [l|] eqn:Hl; [|by inversion Hx].
  simpl in Hx. split.
  - apply run_borrowers_known; [|by rewrite Hl].
    intros u'. destruct Hprov as [-> _]. rewrite lookup_empty. by intros [? [=]].
  - destruct (run_inv L0 ops Hprov) as [_ Hb _]. specialize (Hb (isbn x)).
    pose proof (count_isbn_elem (isbn x) l x Hx eq_refl).
    pose proof (held_count_ge (isbn x) _ u l Hl).
    destruct (books_db (run L0 ops) !! isbn x); [done|].
    destruct (books_db L0 !! isbn x); [done|]. lia.
Qed.

Lemma borrowings_refer_to_catalogue_witness :
  provisioned initial_ledger ∧
  Borrowing "978-4" 3 ∈ user_borrowings (run initial_ledger [Issue 3 "02" "978-4"]) "02" ∧
  is_Some (users_db (run initial_ledger [Issue 3 "02" "978-4"]) !! "02") ∧
  is_Some (books_db (run initial_ledger [Issue 3 "02" "978-4"]) !! "978-4").
Proof.
  assert (Hx : Borrowing "978-4" 3
               ∈ user_borrowings (run initial_ledger [Issue 3 "02" "978-4"]) "02")
    by (vm_compute; left).
  split; [apply initial_ledger_provisioned|]. split; [exact Hx|].
  exact (borrowings_refer_to_catalogue initial_ledger [Issue 3 "02" "978-4"] "02"
           (Borrowing "978-4" 3) initial_ledger_provisioned Hx).
Defined.

End LedgerMore.

(** ** More on the main loop *)

Section MainLoopMore.

Implicit Types (s : session) (b : buttons) (hw : hardware).

Lemma bump_digit_decimal digits pos delta :
  Forall (fun d => 0 <= d <= 9) digits →
  Forall (fun d => 0 <= d <= 9) (bump_digit digits pos delta).
Proof.
  intros Hd. unfold bump_digit. apply Forall_insert; [done|].
  pose proof (Z.mod_pos_bound (digit_at digits pos + delta) 10). lia.
Qed.

Lemma zero_digits_decimal digits : Forall (fun d => 0 <= d <= 9) (zero_digits digits).
Proof. unfold zero_digits. apply Forall_fmap, Forall_true. simpl. lia. Qed.

Lemma initial_session_inv : session_inv initial_session.
Proof.
  split; simpl; try done.
  - repeat constructor; lia.
  - repeat constructor; lia.
  - by exists [].
Qed.

Ltac split_conds :=
  repeat match goal with
         | |- context [if ?c then _ else _] => destruct c eqn:?; simpl
         end.

Ltac inv_record :=
  split; simpl;
  try done; try lia; try (intros; lia); try tauto;
  try (by apply bump_digit_decimal; repeat apply bump_digit_decimal);
  try apply zero_digits_decimal;
  eauto.

Lemma tick_id_inv b s s' :
  session_inv s → current_state s = 3 → tick_id b s = Next s' → session_inv s'.
Proof.
  intros [] Hst. destruct s, b. simpl in *. subst.
  unfold tick_id, id_inputs, when. simpl.
  split_conds; try case_match; intros [= <-]; inv_record.
Qed.

Lemma tick_pin_inv b s s' :
  session_ok s → session_inv s → current_state s = 4 →
  tick_pin b s = Next s' → session_inv s'.
Proof.
  intros [] [] Hst. destruct s, b. simpl in *. subst.
  destruct ok_temp0 as (uid & -> & [usr Husr]); [done|].
  unfold tick_pin, pin_inputs, when. simpl.
  split_conds; simpl in *; rewrite ?Husr; split_conds; intros [= <-];
    inv_record.
Qed.

Lemma tick_menu_inv b s s' :
  session_inv s → current_state s = 0 → tick_menu b s = Next s' → session_inv s'.
Proof.
  intros [] Hst. destruct s, b. simpl in *. subst.
  unfold tick_menu, when. simpl.
  split_conds; intros [= <-]; inv_record;
    try (intros m [= <-]; tauto); try (intros; apply inv_logged_in0; lia).
Qed.

Lemma tick_scan_inv hw events s s' :
  session_inv s → current_state s = 6 →
  tick_scan hw events s = Next s' → session_inv s'.
Proof.
  intros [] Hst. destruct s. simpl in *. subst.
  unfold tick_scan. destruct (perform_scan hw events) as [[code n]|]; [|done].
  simpl. split_conds; repeat case_match; try done; intros [= <-]; inv_record;
    try (intros; apply inv_logged_in0; lia).
Qed.

Lemma catalogue_present (ops : list op) (k : string) :
  is_Some (initial_books_db !! k) → is_Some (books_db (run initial_ledger ops) !! k).
Proof.
  intros [bk0 Hk].
  destruct (run_inv initial_ledger ops initial_ledger_provisioned) as [_ Hb _].
  specialize (Hb k). simpl in Hb. rewrite Hk in Hb.
  by destruct (books_db (run initial_ledger ops) !! k).
Qed.

Lemma book_keys_in_catalogue (i : nat) (key : string) :
  book_keys !! i = Some key → is_Some (initial_books_db !! key).
Proof.
  do 5 (destruct i as [|i]; [intros [= <-]; eexists; vm_compute; reflexivity|]).
  by destruct i.
Qed.

Lemma tick_select_inv b s s' :
  session_inv s → current_state s = 1 →
  tick_select b s = Next s' → session_inv s'.
Proof.
  intros [] Hst. destruct s, b. simpl in *. subst.
  destruct inv_db0 as [ops ->].
  unfold tick_select, when. simpl.
  split_conds; repeat case_match; try done; intros [= <-]; inv_record;
    try (intros; apply inv_logged_in0; lia);
    try (intros _; eapply catalogue_present, book_keys_in_catalogue; eassumption).
Qed.

(** The ledger call of the confirmation screen is one ledger operation. *)
Lemma confirm_call_is_step now (mode : string) (L : ledger) (u k : string) :
  ∃ o, (if bool_decide (mode = "ISSUE")
        then issue_book_logic now L u k
        else return_book_logic now L u k).1 = step L o.
Proof.
  destruct (bool_decide (mode = "ISSUE")).
  - by exists (Issue now u k).
  - by exists (Return now u k).
Qed.

Lemma confirm_call_users now (mode : string) (L : ledger) (u k : string) :
  users_db (if bool_decide (mode = "ISSUE")
            then issue_book_logic now L u k
            else return_book_logic now L u k).1 = users_db L.
Proof.
  destruct (bool_decide (mode = "ISSUE"));
    [apply issue_book_logic_users | apply return_book_logic_users].
Qed.

Lemma run_snoc (L : ledger) (ops : list op) (o : op) :
  step (run L ops) o = run L (ops ++ [o]).
Proof. by rewrite run_app. Qed.

Lemma tick_confirm_inv now b s s' :
  session_inv s → current_state s = 5 →
  tick_confirm now b s = Next s' → session_inv s'.
Proof.
  intros [] Hst. destruct s, b. simpl in *. subst.
  destruct inv_db0 as [ops ->].
  assert (Hin : is_Some (users_db (run initial_ledger ops) !! current_user0))
    by (apply inv_logged_in0; lia).
  unfold tick_confirm.
  destruct btn_up0, btn_down0, btn_ok0;
    cbn [when set_confirm_index confirm_index db current_user selected_isbn
         current_mode btn_up btn_down btn_ok Z.eqb Pos.eqb];
    try destruct (confirm_index0 =? 0);
    try destruct current_mode0 as [mode|];
    try done;
    try match goal with
        | |- context [if bool_decide (?m = "ISSUE") then ?i else ?r] =>
          let o := fresh "o" in
          let Ho := fresh "Ho" in
          let Hu := fresh "Hu" in
          destruct (confirm_call_is_step now m (run initial_ledger ops)
                      current_user0 selected_isbn0) as [o Ho];
          pose proof (confirm_call_users now m (run initial_ledger ops)
                        current_user0 selected_isbn0) as Hu;
          rewrite run_snoc in Ho;
          destruct (if bool_decide (m = "ISSUE") then i else r)
            as [db' [[hdr body] f]];
          cbn [fst] in Ho, Hu; subst db'
        end;
    cbn [set_db set_current_fine set_current_state];
    intros [= <-]; split;
    cbn [current_state current_user current_fine users_db db temp_user_id
         current_mode qr_group id_digits pin_digits selected_isbn Z.eqb Pos.eqb];
    try done; try lia; try (intros; lia); try tauto; eauto;
    try (intros; by rewrite Hu).
Qed.

Lemma tick_result_screen_inv b s s' :
  session_inv s → current_state s = 2 →
  tick_result_screen b s = Next s' → session_inv s'.
Proof.
  intros [] Hst. destruct s, b. simpl in *. subst.
  unfold tick_result_screen. cbn [btn_ok current_mode current_fine].
  destruct btn_ok0; [|intros [= <-]; by split].
  destruct current_mode0 as [mode|]; [|done].
  destruct (bool_decide_reflect (mode = "RETURN")) as [->|Hmode];
    destruct (Z.ltb_spec 0 current_fine0);
    cbn [andb set_current_state set_qr_group qr_group current_fine];
    intros [= <-]; split;
    cbn [current_state current_user current_fine users_db db temp_user_id
         current_mode qr_group id_digits pin_digits selected_isbn Z.eqb Pos.eqb];
    try done; try lia; try (intros; lia); try tauto; eauto;
    try (intros; apply inv_logged_in0; lia);
    try (by rewrite inv_qr_group0).
Qed.

Lemma tick_qr_inv b s s' :
  session_inv s → current_state s = 7 → tick_qr b s = Next s' → session_inv s'.
Proof.
  intros [] Hst. destruct s, b. simpl in *. subst.
  unfold tick_qr. cbn [btn_ok qr_group].
  destruct btn_ok0; [|intros [= <-]; by split].
  cbn [set_current_state set_qr_group]. intros [= <-]. split;
    cbn [current_state current_user current_fine users_db db temp_user_id
         current_mode qr_group id_digits pin_digits selected_isbn Z.eqb Pos.eqb];
    try done; try lia; try (intros; lia); try tauto; eauto;
    try (intros; apply inv_logged_in0; lia).
Qed.

Lemma tick_inv hw now b events s s' :
  session_ok s → session_inv s →
  tick hw now b events s = Next s' → session_inv s'.
Proof.
  intros Hok Hinv. unfold tick.
  destruct (Z.eqb_spec (current_state s) 3) as [Hst|_];
    [intros Ht; exact (tick_id_inv b s s' Hinv Hst Ht)|].
  destruct (Z.eqb_spec (current_state s) 4) as [Hst|_];
    [intros Ht; exact (tick_pin_inv b s s' Hok Hinv Hst Ht)|].
  destruct (Z.eqb_spec (current_state s) 0) as [Hst|_];
    [intros Ht; exact (tick_menu_inv b s s' Hinv Hst Ht)|].
  destruct (Z.eqb_spec (current_state s) 6) as [Hst|_];
    [intros Ht; exact (tick_scan_inv hw events s s' Hinv Hst Ht)|].
  destruct (Z.eqb_spec (current_state s) 1) as [Hst|_];
    [intros Ht; exact (tick_select_inv b s s' Hinv Hst Ht)|].
  destruct (Z.eqb_spec (current_state s) 5) as [Hst|_];
    [intros Ht; exact (tick_confirm_inv now b s s' Hinv Hst Ht)|].
  destruct (Z.eqb_spec (current_state s) 2) as [Hst|_];
    [intros Ht; exact (tick_result_screen_inv b s s' Hinv Hst Ht)|].
  destruct (Z.eqb_spec (current_state s) 7) as [Hst|_];
    [intros Ht; exact (tick_qr_inv b s s' Hinv Hst Ht)|].
  by intros [= <-].
Qed.

Lemma run_loop_inv hw (inputs : list pass_input) s s' :
  session_ok s → session_inv s →
  run_loop hw inputs s = Next s' → session_ok s' ∧ session_inv s'.
Proof.
  revert s. induction inputs as [|i rest IH]; intros s Hok Hinv; simpl.
  - by intros [= <-].
  - destruct (tick_ok hw (pass_now i) (pass_buttons i) (pass_events i) s Hok)
      as [Hs | (s1 & Hs & Hok1)]; rewrite Hs; [done|].
    apply IH; [done|]. exact (tick_inv hw _ _ _ s s1 Hok Hinv Hs).
Qed.

(** X8.  Nobody is logged in on the two login screens, and on every other
    screen the current user is a user of the user table: the menu and all
    that follows it are out of reach without a login. *)
Theorem menu_requires_login hw (inputs : list pass_input) s :
  run_loop hw inputs initial_session = Next s →
  (current_state s = 3 ∨ current_state s = 4 → current_user s = EmptyString) ∧
  (current_state s ≠ 3 → current_state s ≠ 4 →
   is_Some (initial_users_db !! current_user s)).
Proof.
  intros Hrun.
  destruct (run_loop_inv hw inputs _ s initial_session_ok initial_session_inv Hrun)
    as [[] []].
  split; [done|]. by rewrite <- ok_users0.
Qed.

Lemma menu_requires_login_witness :
  ∃ s, run_loop (Hardware None None) login_01 initial_session = Next s ∧
       (current_state s = 3 ∨ current_state s = 4 → current_user s = EmptyString) ∧
       (current_state s ≠ 3 → current_state s ≠ 4 →
        is_Some (initial_users_db !! current_user s)).
Proof.
  eexists. split; [vm_compute; reflexivity|].
  apply (menu_requires_login (Hardware None None) login_01).
  vm_compute. reflexivity.
Defined.

Example return_flow_example :
  ∃ s, run_loop working_camera (login_01 ++ issue_978_1 ++ return_978_1 ++ [press_ok])
         initial_session = Next s ∧
       current_state s = 7 ∧ current_fine s = 30 ∧
       qr_group s = [Background; Header; QrTile 30] ∧ db s = initial_ledger.
Proof. eexists. vm_compute. repeat split. Qed.

(** X9.  Every ledger state the kiosk gets into is one that a sequence of Issue
    and Return calls reaches from the start state, so what holds of those
    holds of the running program; in particular the counts stay in range. *)
Theorem kiosk_ledger_is_reachable hw (inputs : list pass_input) s :
  run_loop hw inputs initial_session = Next s →
  (∃ ops, db s = run initial_ledger ops) ∧
  (∀ k bk, books_db (db s) !! k = Some bk → 0 <= available bk <= total bk).
Proof.
  intros Hrun.
  destruct (run_loop_inv hw inputs _ s initial_session_ok initial_session_inv Hrun)
    as [_ Hinv].
  destruct (inv_db s Hinv) as [ops Hdb].
  split; [by exists ops|]. rewrite Hdb. intros k bk Hk.
  destruct (run_inv initial_ledger ops initial_ledger_provisioned) as [_ Hb _].
  specialize (Hb k). rewrite Hk in Hb.
  destruct (books_db initial_ledger !! k) as [bk0|] eqn:Hk0; [|done].
  destruct Hb as (_ & Htot & Hlo & Hsum).
  destruct initial_ledger_provisioned as [_ Hprov]. specialize (Hprov k bk0 Hk0).
  pose proof (held_count_nonneg k (borrowings (run initial_ledger ops))). lia.
Qed.

Lemma kiosk_ledger_is_reachable_witness :
  ∃ s, run_loop working_camera (login_01 ++ issue_978_1) initial_session = Next s ∧
       (∃ ops, db s = run initial_ledger ops) ∧
       (∀ k bk, books_db (db s) !! k = Some bk → 0 <= available bk <= total bk).
Proof.
  eexists. split; [vm_compute; reflexivity|].
  apply (kiosk_ledger_is_reachable working_camera (login_01 ++ issue_978_1)).
  vm_compute. reflexivity.
Defined.

(** X10.  On the confirmation screen the user and the book are always known to
    the ledger: an Issue made there never answers "User ID Not Found" or
    "Book Not Found", and a Return never answers "Book Not Found". *)
Theorem confirm_screen_finds_user_and_book hw (inputs : list pass_input) s now :
  run_loop hw inputs initial_session = Next s →
  current_state s = 5 →
  let r_issue := (issue_book_logic now (db s) (current_user s) (selected_isbn s)).2 in
  let r_return := (return_book_logic now (db s) (current_user s) (selected_isbn s)).2 in
  r_issue.1.2 ≠ UserIdNotFound ∧ r_issue.1.2 ≠ BookNotFound ∧
  r_return.1.2 ≠ BookNotFound.
Proof.
  intros Hrun Hst.
  destruct (run_loop_inv hw inputs _ s initial_session_ok initial_session_inv Hrun)
    as [_ Hinv].
  destruct (inv_logged_in s Hinv) as [usr Husr]; [lia..|].
  destruct (inv_selected s Hinv Hst) as [bk Hbk].
  simpl. unfold issue_book_logic, return_book_logic. rewrite Husr, Hbk.
  repeat split; repeat case_match; done.
Qed.

Lemma confirm_screen_finds_user_and_book_witness :
  ∃ s, run_loop working_camera
         (login_01 ++ [press_ok; scan_frames [Frame ["978-1"] false]])
         initial_session = Next s ∧
       current_state s = 5 ∧
       (issue_book_logic 0 (db s) (current_user s) (selected_isbn s)).2.1.2
       ≠ UserIdNotFound.
Proof.
  eexists. split; [vm_compute; reflexivity|]. split; [reflexivity|].
  apply (confirm_screen_finds_user_and_book working_camera
           (login_01 ++ [press_ok; scan_frames [Frame ["978-1"] false]]) _ 0).
  - vm_compute. reflexivity.
  - reflexivity.
Defined.

(** X11.  The QR group holds the background and the header, and one payment code
    exactly while the payment screen is shown; that code is for the fine of
    the Return just made, which is positive.  No tile is ever left behind. *)
Theorem payment_code_matches_fine hw (inputs : list pass_input) s :
  run_loop hw inputs initial_session = Next s →
  qr_group s = (if current_state s =? 7
                then [Background; Header; QrTile (current_fine s)]
                else [Background; Header]) ∧
  (current_state s = 7 → 0 < current_fine s ∧ current_mode s = Some "RETURN").
Proof.
  intros Hrun.
  destruct (run_loop_inv hw inputs _ s initial_session_ok initial_session_inv Hrun)
    as [_ Hinv].
  split; [apply (inv_qr_group s Hinv) | apply (inv_qr_fine s Hinv)].
Qed.

Lemma payment_code_matches_fine_witness :
  ∃ s, run_loop working_camera (login_01 ++ issue_978_1 ++ return_978_1 ++ [press_ok])
         initial_session = Next s ∧
       qr_group s = [Background; Header; QrTile 30] ∧
       (current_state s = 7 → 0 < current_fine s ∧ current_mode s = Some "RETURN").
Proof.
  eexists. split; [vm_compute; reflexivity|].
  apply (payment_code_matches_fine working_camera
           (login_01 ++ issue_978_1 ++ return_978_1 ++ [press_ok])).
  vm_compute. reflexivity.
Defined.

(** X12.  The digit labels always spell decimal digits, two for the ID and four
    for the PIN, and the cursors stay on them. *)
Theorem digit_labels_stay_decimal hw (inputs : list pass_input) s :
  run_loop hw inputs initial_session = Next s →
  List.length (id_digits s) = 2%nat ∧ List.length (pin_digits s) = 4%nat ∧
  Forall (fun d => 0 <= d <= 9) (id_digits s) ∧
  Forall (fun d => 0 <= d <= 9) (pin_digits s) ∧
  0 <= id_pos s <= 1 ∧ 0 <= pin_pos s <= 3.
Proof.
  intros Hrun.
  destruct (run_loop_inv hw inputs _ s initial_session_ok initial_session_inv Hrun)
    as [Hok Hinv].
  repeat split;
    try apply (ok_id_digits s Hok); try apply (ok_pin_digits s Hok);
    try apply (inv_id_digits s Hinv); try apply (inv_pin_digits s Hinv);
    try apply (ok_id_pos s Hok); try apply (ok_pin_pos s Hok).
Qed.

Lemma digit_labels_stay_decimal_witness :
  ∃ s, run_loop (Hardware None None)
         [press_down; press_right; press_right; press_up; press_left; press_left]
         initial_session = Next s ∧
       id_digits s = [9; 1] ∧ id_pos s = 0 ∧
       List.length (pin_digits s) = 4%nat.
Proof.
  eexists. split; [vm_compute; reflexivity|].
  destruct (digit_labels_stay_decimal (Hardware None None)
              [press_down; press_right; press_right; press_up; press_left; press_left]
              _ eq_refl) as (_ & Hpin & _).
  split; [reflexivity|]. split; [reflexivity|]. exact Hpin.
Defined.

Ltac by_state s :=
  unfold tick;
  repeat match goal with
         | |- context [current_state s =? ?k] =>
           destruct (Z.eqb_spec (current_state s) k)
         end.

Ltac confirm_call :=
  match goal with
  | |- context [if bool_decide (?m = "ISSUE") then ?i else ?r] =>
    destruct (if bool_decide (m = "ISSUE") then i else r) as [? [[? ?] ?]]
  end.

(** X13.  The screens follow one another only along these arrows: ID entry to
    itself or the PIN entry; PIN entry to itself or the menu; menu to itself,
    the ID entry or the scan; scan to the confirmation, the menu or the
    manual list; manual list to itself, the menu or the confirmation;
    confirmation to itself, the result or the menu; result to itself, the
    payment code or the menu; payment code to itself or the menu. *)
Theorem tick_transitions hw now b events s s' :
  tick hw now b events s = Next s' →
  current_state s' ∈ next_states (current_state s).
Proof.
  unfold next_states. by_state s.
  - destruct s as [st cu cf si ip pp mi bi ci tu cm idd pd qg d], b as [bu bd bo bl br]. simpl in *. subst. unfold tick_id, id_inputs, when. simpl.
    split_conds; try case_match; intros [= <-]; simpl; set_solver.
  - destruct s as [st cu cf si ip pp mi bi ci tu cm idd pd qg d], b as [bu bd bo bl br]. simpl in *. subst. unfold tick_pin, pin_inputs, when. simpl.
    split_conds; repeat case_match; try done; intros [= <-]; simpl; set_solver.
  - destruct s as [st cu cf si ip pp mi bi ci tu cm idd pd qg d], b as [bu bd bo bl br]. simpl in *. subst. unfold tick_menu, when. simpl.
    split_conds; intros [= <-]; simpl; set_solver.
  - destruct s as [st cu cf si ip pp mi bi ci tu cm idd pd qg d]. simpl in *. subst. unfold tick_scan.
    destruct (perform_scan hw events) as [[code takes]|]; [|done]. simpl.
    split_conds; repeat case_match; try done; intros [= <-]; simpl; set_solver.
  - destruct s as [st cu cf si ip pp mi bi ci tu cm idd pd qg d], b as [bu bd bo bl br]. simpl in *. subst. unfold tick_select, when. simpl.
    split_conds; repeat case_match; try done; intros [= <-]; simpl; set_solver.
  - destruct s as [st cu cf si ip pp mi bi ci tu cm idd pd qg d], b as [bu bd bo bl br]. simpl in *. subst. unfold tick_confirm.
    destruct bu, bd, bo;
      cbn [when set_confirm_index confirm_index db current_user selected_isbn
           current_mode btn_up btn_down btn_ok Z.eqb Pos.eqb];
      try destruct (ci =? 0);
      try destruct cm as [mode|]; try done;
      try confirm_call;
      cbn [set_db set_current_fine set_current_state];
      intros [= <-]; cbn [current_state]; set_solver.
  - destruct s as [st cu cf si ip pp mi bi ci tu cm idd pd qg d], b as [bu bd bo bl br]. simpl in *. subst. unfold tick_result_screen.
    cbn [btn_ok current_mode current_fine].
    destruct bo; [|intros [= <-]; simpl; set_solver].
    destruct cm as [mode|]; [|done].
    destruct (bool_decide (mode = "RETURN") && (0 <? cf));
      intros [= <-]; simpl; set_solver.
  - destruct s as [st cu cf si ip pp mi bi ci tu cm idd pd qg d], b as [bu bd bo bl br]. simpl in *. subst. unfold tick_qr.
    cbn [btn_ok qr_group].
    destruct bo; [|intros [= <-]; simpl; set_solver].
    destruct qg; [done|]. intros [= <-]. simpl. set_solver.
  - intros [= <-]. set_solver.
Qed.

Lemma tick_transitions_witness :
  tick (Hardware None None) 0 (pass_buttons press_ok) [] initial_session
  = Next initial_session ∧
  current_state initial_session ∈ next_states (current_state initial_session).
Proof.
  split; [vm_compute; reflexivity|].
  apply (tick_transitions (Hardware None None) 0 (pass_buttons press_ok) []).
  vm_compute. reflexivity.
Defined.

(** X14.  The current user changes in two ways only: OK on the PIN entry with
    the digits equal to the password of the user chosen on the ID entry,
    which logs that user in, and OK on LOGOUT, which logs out. *)
Theorem current_user_changes hw now b events s s' :
  tick hw now b events s = Next s' →
  current_user s' ≠ current_user s →
  (current_state s = 4 ∧ btn_ok b = true ∧
   ∃ uid usr, temp_user_id s = Some uid ∧ users_db (db s) !! uid = Some usr ∧
              join_digits (pin_digits (pin_inputs b s)) = password usr ∧
              current_user s' = uid) ∨
  (current_state s = 0 ∧ btn_ok b = true ∧ current_user s' = EmptyString).
Proof.
  by_state s.
  - destruct s as [st cu cf si ip pp mi bi ci tu cm idd pd qg d], b as [bu bd bo bl br].
    simpl in *. subst. unfold tick_id, id_inputs, when. simpl.
    split_conds; try case_match; by intros [= <-].
  - destruct (pin_inputs_frame b s) as (_ & Hcu & Htemp & Hdb & _).
    unfold tick_pin. destruct (btn_ok b); [|intros [= <-]; congruence].
    rewrite Htemp, Hdb. destruct (temp_user_id s) as [uid|]; [|done].
    destruct (users_db (db s) !! uid) as [usr|] eqn:Husr; [|done].
    destruct (bool_decide_reflect
                (join_digits (pin_digits (pin_inputs b s)) = password usr)).
    + intros [= <-] _. left. repeat split; [done|].
      exists uid, usr. repeat split; [done..|]. by destruct (pin_inputs b s).
    + intros [= <-] Hne. exfalso. apply Hne. rewrite <- Hcu.
      by destruct (pin_inputs b s).
  - destruct s as [st cu cf si ip pp mi bi ci tu cm idd pd qg d], b as [bu bd bo bl br].
    simpl in *. subst. unfold tick_menu, when. simpl.
    split_conds; intros [= <-]; simpl; try done; intros _; by right.
  - destruct s as [st cu cf si ip pp mi bi ci tu cm idd pd qg d].
    simpl in *. subst. unfold tick_scan.
    destruct (perform_scan hw events) as [[code takes]|]; [|done]. simpl.
    split_conds; repeat case_match; try done; by intros [= <-].
  - destruct s as [st cu cf si ip pp mi bi ci tu cm idd pd qg d], b as [bu bd bo bl br].
    simpl in *. subst. unfold tick_select, when. simpl.
    split_conds; repeat case_match; try done; by intros [= <-].
  - destruct s as [st cu cf si ip pp mi bi ci tu cm idd pd qg d], b as [bu bd bo bl br].
    simpl in *. subst. unfold tick_confirm.
    destruct bu, bd, bo;
      cbn [when set_confirm_index confirm_index db current_user selected_isbn
           current_mode btn_up btn_down btn_ok Z.eqb Pos.eqb];
      try destruct (ci =? 0);
      try destruct cm as [mode|]; try done;
      try confirm_call;
      cbn [set_db set_current_fine set_current_state];
      by intros [= <-].
  - destruct s as [st cu cf si ip pp mi bi ci tu cm idd pd qg d], b as [bu bd bo bl br].
    simpl in *. subst. unfold tick_result_screen.
    cbn [btn_ok current_mode current_fine].
    destruct bo; [|by intros [= <-]].
    destruct cm as [mode|]; [|done].
    destruct (bool_decide (mode = "RETURN") && (0 <? cf)); by intros [= <-].
  - destruct s as [st cu cf si ip pp mi bi ci tu cm idd pd qg d], b as [bu bd bo bl br].
    simpl in *. subst. unfold tick_qr. cbn [btn_ok qr_group].
    destruct bo; [|by intros [= <-]].
    destruct qg; [done|]. by intros [= <-].
  - by intros [= <-].
Qed.

Lemma current_user_changes_witness :
  let s := set_pin_digits [1; 2; 3; 4]
             (set_temp_user_id (Some "01") (set_current_state 4 initial_session)) in
  let s' := set_current_state 0 (set_menu_index 0 (set_current_user "01" s)) in
  tick (Hardware None None) 0 (pass_buttons press_ok) [] s = Next s' ∧
  current_user s' ≠ current_user s ∧
  ((current_state s = 4 ∧ btn_ok (pass_buttons press_ok) = true ∧
    ∃ uid usr, temp_user_id s = Some uid ∧ users_db (db s) !! uid = Some usr ∧
               join_digits (pin_digits (pin_inputs (pass_buttons press_ok) s))
               = password usr ∧
               current_user s' = uid) ∨
   (current_state s = 0 ∧ btn_ok (pass_buttons press_ok) = true ∧
    current_user s' = EmptyString)).
Proof.
  split; [vm_compute; reflexivity|]. split; [vm_compute; discriminate|].
  apply (current_user_changes (Hardware None None) 0 (pass_buttons press_ok) []).
  - vm_compute. reflexivity.
  - vm_compute. discriminate.
Defined.

End MainLoopMore.

(** ** More on the scanner *)

Section ScannerMore.

Implicit Types (s : session) (b : buttons) (hw : hardware).

Lemma utf8_valid_ascii (text : string) : is_ascii text = true → utf8_valid text = true.
Proof.
  induction text as [|c text IH]; [done|].
  intros Ha. apply andb_prop in Ha as [Hc Ht]. simpl. rewrite Hc. by apply IH.
Qed.

Lemma decode_payload_ascii (text : string) :
  is_ascii text = true → decode_payload text = text.
Proof.
  intros Ha. unfold decode_payload, bytes_decode_utf8.
  by rewrite utf8_valid_ascii.
Qed.

Lemma foldl_last_payload (d : option string) (payloads : list string) :
  foldl (fun _ p => Some (decode_payload p)) d payloads
  = match last payloads with
    | Some p => Some (decode_payload p)
    | None => d
    end.
Proof.
  destruct payloads as [|p ps] using rev_ind; [done|].
  by rewrite foldl_app, last_snoc.
Qed.

(** X17.  A frame whose last code is the text of a catalogue identifier, in plain
    ASCII, ends the scan and leads to the confirmation of that very book,
    with Yes preselected, whatever the left button does and whatever frames
    would follow. *)
Theorem scan_selects_book hw (c : camera) (q : qr_decoder) now b s
    (key mode : string) (bk : book) (payloads : list string)
    (left_pressed : bool) (rest : list frame_event) :
  cam hw = Some c → qrdecoder hw = Some q →
  current_state s = 6 → current_mode s = Some mode →
  is_ascii key = true → key ≠ EmptyString →
  books_db (db s) !! key = Some bk →
  tick hw now b (Frame (payloads ++ [key]) left_pressed :: rest) s
  = Next (set_current_state 5 (set_confirm_index 0 (set_selected_isbn key s))).
Proof.
  intros Hcam Hqr Hst Hmode Ha Hne Hbk.
  unfold tick, tick_scan, perform_scan. rewrite Hst, Hcam, Hqr. simpl.
  rewrite last_payload_wins, decode_payload_ascii by done.
  simpl. case_bool_decide; [done|]. simpl.
  case_bool_decide; [done|]. simpl. by rewrite Hbk, Hmode.
Qed.

Lemma scan_selects_book_witness :
  let s := set_current_mode (Some "RETURN") (set_current_state 6 initial_session) in
  tick working_camera 0 (pass_buttons press_left)
    (Frame (["junk"] ++ ["978-3"]) true :: [FrameError]) s
  = Next (set_current_state 5 (set_confirm_index 0 (set_selected_isbn "978-3" s))).
Proof.
  apply (scan_selects_book working_camera EspCamera QRDecoder 0
           (pass_buttons press_left)
           (set_current_mode (Some "RETURN") (set_current_state 6 initial_session))
           "978-3" "RETURN" (Book "Data Science" 4 2) ["junk"] true [FrameError]).
  - reflexivity.
  - reflexivity.
  - reflexivity.
  - reflexivity.
  - vm_compute. reflexivity.
  - discriminate.
  - vm_compute. reflexivity.
Defined.

Lemma scan_loop_prefix (qr : option qr_decoder) (d : option string) (n : nat)
    (events more : list frame_event) (r : option string * nat) :
  scan_loop qr d n events = Some r → scan_loop qr d n (events ++ more) = Some r.
Proof.
  revert d n. induction events as [|ev events IH]; intros d n; simpl; [done|].
  destruct ev as [|payloads left_pressed]; [done|].
  destruct qr; [|done].
  destruct (truthy _); [done|]. destruct left_pressed; [done|]. apply IH.
Qed.

Lemma scan_loop_takes (qr : option qr_decoder) (d : option string) (n : nat)
    (events : list frame_event) (d' : option string) (n' : nat) :
  scan_loop qr d n events = Some (d', n') → (n < n' ≤ n + List.length events)%nat.
Proof.
  revert d n. induction events as [|ev events IH]; intros d n; simpl; [done|].
  destruct ev as [|payloads left_pressed]; [intros [= <- <-]; lia|].
  destruct qr; [|intros [= <- <-]; lia].
  destruct (truthy _); [intros [= <- <-]; lia|].
  destruct left_pressed; [intros [= <- <-]; lia|].
  intros Hs. apply IH in Hs. lia.
Qed.

Lemma scan_loop_found (qr : option qr_decoder) (d : option string) (n : nat)
    (events : list frame_event) (d' : option string) (n' : nat) :
  scan_loop qr d n events = Some (d', n') →
  truthy d = false → truthy d' = true →
  ∃ payloads left_pressed p,
    events !! (n' - n - 1)%nat = Some (Frame payloads left_pressed) ∧
    last payloads = Some p ∧ d' = Some (decode_payload p).
Proof.
  revert d n. induction events as [|ev events IH]; intros d n; simpl; [done|].
  destruct ev as [|payloads left_pressed].
  { intros [= <- <-] Hd Hd'. congruence. }
  destruct qr.
  2: { intros [= <- <-] Hd Hd'. congruence. }
  rewrite foldl_last_payload.
  destruct (last payloads) as [p|] eqn:Hlast.
  - destruct (truthy (Some (decode_payload p))) eqn:Ht.
    + intros [= <- <-] _ _. replace (S n - n - 1)%nat with 0%nat by lia.
      by exists payloads, left_pressed, p.
    + destruct left_pressed; [intros [= <- <-] _ Hd'; congruence|].
      intros Hs _ Hd'. pose proof (scan_loop_takes _ _ _ _ _ _ Hs).
      destruct (IH _ _ Hs Ht Hd') as (ps & l & p' & Hev & Hp).
      exists ps, l, p'. split; [|done].
      replace (n' - n - 1)%nat with (S (n' - S n - 1)) by lia. done.
  - intros Hs Hd Hd'. rewrite Hd in Hs.
    destruct left_pressed; [injection Hs as <- <-; congruence|].
    pose proof (scan_loop_takes _ _ _ _ _ _ Hs).
    destruct (IH _ _ Hs Hd Hd') as (ps & l & p' & Hev & Hp).
    exists ps, l, p'. split; [|done].
    replace (n' - n - 1)%nat with (S (n' - S n - 1)) by lia. done.
Qed.

(** X18.  A scan that returns has taken at least one frame when there is a
    camera and never more than the frames it met; it is not changed by
    frames that would come later; and when it reports data, that data is
    the decoded last code of the very frame it stopped on. *)
Theorem scan_reports_last_frame hw (events : list frame_event)
    (d : option string) (n : nat) :
  perform_scan hw events = Some (d, n) →
  (n ≤ List.length events)%nat ∧
  (is_Some (cam hw) → (1 ≤ n)%nat) ∧
  (∀ more, perform_scan hw (events ++ more) = Some (d, n)) ∧
  (truthy d = true →
   ∃ payloads left_pressed p,
     events !! (n - 1)%nat = Some (Frame payloads left_pressed) ∧
     last payloads = Some p ∧ d = Some (decode_payload p)).
Proof.
  unfold perform_scan. destruct (cam hw) as [c|].
  - intros Hs. pose proof (scan_loop_takes _ _ _ _ _ _ Hs).
    repeat split; try lia.
    + intros more. by apply scan_loop_prefix.
    + intros Hd. destruct (scan_loop_found _ _ _ _ _ _ Hs eq_refl Hd)
        as (ps & l & p & Hev & Hp).
      exists ps, l, p. split; [|done]. by replace (n - 1)%nat with (n - 0 - 1)%nat by lia.
  - intros [= <- <-]. repeat split; try lia; done.
Qed.

Lemma scan_reports_last_frame_witness :
  let events := [Frame [] false; Frame [EmptyString] false;
                 Frame ["978-9"; "978-2"] false; FrameError] in
  perform_scan working_camera events = Some (Some "978-2", 3%nat) ∧
  (3 ≤ List.length events)%nat ∧
  (is_Some (cam working_camera) → (1 ≤ 3)%nat) ∧
  (∀ more, perform_scan working_camera (events ++ more) = Some (Some "978-2", 3%nat)) ∧
  (truthy (Some "978-2") = true →
   ∃ payloads left_pressed p,
     events !! (3 - 1)%nat = Some (Frame payloads left_pressed) ∧
     last payloads = Some p ∧ Some "978-2" = Some (decode_payload p)).
Proof.
  split; [vm_compute; reflexivity|].
  apply (scan_reports_last_frame working_camera
           [Frame [] false; Frame [EmptyString] false;
            Frame ["978-9"; "978-2"] false; FrameError]).
  vm_compute. reflexivity.
Defined.

(** X19.  An empty code counts as no code: a frame whose last code is empty does
    not end the scan by itself, and when the left button ends it the scan
    state goes to the manual list, as after a plain cancel. *)
Theorem scan_empty_code_is_no_code hw (c : camera) (q : qr_decoder) now b s
    (mode : string) (payloads : list string) (rest : list frame_event) :
  cam hw = Some c → qrdecoder hw = Some q →
  current_state s = 6 → current_mode s = Some mode →
  perform_scan hw (Frame (payloads ++ [EmptyString]) false :: rest)
  = scan_loop (Some q) (Some EmptyString) 1 rest ∧
  tick hw now b (Frame (payloads ++ [EmptyString]) true :: rest) s
  = Next (set_current_state 1 (set_book_index 0 s)).
Proof.
  intros Hcam Hqr Hst Hmode.
  unfold tick, tick_scan, perform_scan. rewrite Hst, Hcam, Hqr. simpl.
  rewrite last_payload_wins. simpl. by rewrite Hmode.
Qed.

Lemma scan_empty_code_is_no_code_witness :
  let s := set_current_mode (Some "ISSUE") (set_current_state 6 initial_session) in
  perform_scan working_camera (Frame ([] ++ [EmptyString]) false :: [FrameError])
  = scan_loop (Some QRDecoder) (Some EmptyString) 1 [FrameError] ∧
  tick working_camera 0 (pass_buttons press_left)
    (Frame ([] ++ [EmptyString]) true :: [FrameError]) s
  = Next (set_current_state 1 (set_book_index 0 s)).
Proof.
  apply (scan_empty_code_is_no_code working_camera EspCamera QRDecoder 0
           (pass_buttons press_left)
           (set_current_mode (Some "ISSUE") (set_current_state 6 initial_session))
           "ISSUE" [] [FrameError]); reflexivity.
Defined.

End ScannerMore.

(** ** Wrapping the result text *)

Section WrapText.

Implicit Types (line text : list ascii) (lines : list (list ascii)).

Example wrap_text_examples :
  wrap_text 50 "Issued: Python Basics" 18 = Some (String.append "Issued: Python" (String newline "Basics")) ∧
  wrap_text 50 "abcdefghij" 4 = Some (String.append "abcd" (String newline (String.append "efgh" (String newline "ij")))) ∧
  wrap_text 50 " x" 1 = Some (String newline "x") ∧
  wrap_text 50 "a" 0 = None.
Proof. vm_compute. repeat split. Qed.

Lemma rfind_spec (c : ascii) line :
  (rfind c line = -1 ∧ c ∉ line) ∨
  (0 <= rfind c line < Z.of_nat (List.length line) ∧
   line !! Z.to_nat (rfind c line) = Some c).
Proof.
  induction line as [|x line IH]; simpl.
  - left. split; [done|]. by intros H; inversion H.
  - destruct IH as [[-> Hnot]|[Hr Hl]].
    + simpl. case_decide as Hx.
      * right. subst. split; [lia|done].
      * left. split; [done|]. intros H. apply list_elem_of_In in H.
        destruct H as [->|H]; [done|]. by apply Hnot, list_elem_of_In.
    + destruct (Z.eqb_spec (rfind c line) (-1)); [lia|]. right. split; [lia|].
      replace (Z.to_nat (rfind c line + 1)) with (S (Z.to_nat (rfind c line))) by lia.
      done.
Qed.

Lemma lstrip_length line : (List.length (lstrip line) ≤ List.length line)%nat.
Proof. induction line as [|c line IH]; simpl; [done|]. destruct (is_space c); simpl; lia. Qed.

Lemma strip_length line : (List.length (strip line) ≤ List.length line)%nat.
Proof.
  unfold strip. rewrite length_reverse.
  etrans; [apply lstrip_length|]. rewrite length_reverse. apply lstrip_length.
Qed.

Lemma strip_length_space (c : ascii) line :
  is_space c = true → (List.length (strip (c :: line)) ≤ List.length line)%nat.
Proof.
  intros Hc. unfold strip. simpl. rewrite Hc, length_reverse.
  etrans; [apply lstrip_length|]. rewrite length_reverse. apply lstrip_length.
Qed.

Lemma ink_lstrip line : ink (lstrip line) = ink line.
Proof.
  induction line as [|c line IH]; simpl; [done|].
  destruct (is_space c) eqn:Hc; [|done].
  unfold ink in *. rewrite filter_cons_False by congruence. done.
Qed.

Lemma ink_strip line : ink (strip line) = ink line.
Proof.
  unfold strip, ink. rewrite filter_reverse. fold (ink (lstrip (reverse (lstrip line)))).
  rewrite ink_lstrip. unfold ink. rewrite filter_reverse, reverse_involutive.
  apply ink_lstrip.
Qed.

Lemma ink_slices line (i : Z) : ink (slice_to line i) ++ ink (slice_from line i) = ink line.
Proof. unfold ink, slice_to, slice_from. by rewrite <- filter_app, take_drop. Qed.

Lemma slice_to_length line (i : Z) :
  0 <= i → Z.of_nat (List.length (slice_to line i)) = Z.min i (Z.of_nat (List.length line)).
Proof.
  intros Hi. unfold slice_to, slice_index. rewrite length_take.
  destruct (Z.ltb_spec i 0); lia.
Qed.

Lemma slice_from_length line (i : Z) :
  0 <= i →
  Z.of_nat (List.length (slice_from line i))
  = Z.of_nat (List.length line) - Z.min i (Z.of_nat (List.length line)).
Proof.
  intros Hi. unfold slice_from, slice_index. rewrite length_drop.
  destruct (Z.ltb_spec i 0); lia.
Qed.

Lemma slice_from_0 line : slice_from line 0 = line.
Proof.
  unfold slice_from, slice_index. simpl.
  replace (Z.to_nat (Z.min 0 (Z.of_nat (List.length line)))) with 0%nat by lia.
  apply drop_0.
Qed.

Lemma slice_to_0 line : slice_to line 0 = [].
Proof.
  unfold slice_to, slice_index. simpl.
  replace (Z.to_nat (Z.min 0 (Z.of_nat (List.length line)))) with 0%nat by lia.
  apply take_0.
Qed.

Lemma elem_of_lstrip (c : ascii) line : c ∈ lstrip line → c ∈ line.
Proof.
  induction line as [|x line IH]; simpl; [done|].
  destruct (is_space x); [|done]. intros H. right. by apply IH.
Qed.

Lemma elem_of_strip (c : ascii) line : c ∈ strip line → c ∈ line.
Proof.
  unfold strip. rewrite elem_of_reverse. intros H.
  apply elem_of_lstrip in H. rewrite elem_of_reverse in H.
  by apply elem_of_lstrip.
Qed.

(** The character at a split point found by [rfind] is a space, so the
    rest starts with it when the split point is 0. *)
Lemma split_at_space line (m : Z) :
  0 <= m → rfind space (slice_to line m) = 0 →
  ∃ line', line = space :: line'.
Proof.
  intros Hm Hr. destruct (rfind_spec space (slice_to line m)) as [[H _]|[_ Hl]]; [lia|].
  rewrite Hr in Hl. simpl in Hl. unfold slice_to in Hl.
  destruct line as [|c line']; [by rewrite take_nil in Hl|].
  destruct (slice_index _ m); simpl in Hl; [done|]. injection Hl as ->. eauto.
Qed.

Lemma wrap_line_ends (m : Z) (fuel : nat) line lines :
  1 <= m → (List.length line < fuel)%nat →
  ∃ out, wrap_line fuel m line lines = Some out ∧
         (narrow m lines → narrow m out) ∧
         (one_line lines → newline ∉ line → one_line out) ∧
         out ≠ [].
Proof.
  intros Hm. revert line lines.
  induction fuel as [|fuel IH]; intros line lines Hfuel; [lia|]. simpl.
  destruct (Z.ltb_spec m (Z.of_nat (List.length line))) as [Hlong|Hshort].
  2: { eexists. split; [done|]. split; [|split].
       - intros Hn. apply Forall_app. split; [done|]. by constructor.
       - intros Ho Hl. apply Forall_app. split; [done|]. by constructor.
       - by destruct lines. }
  set (r := rfind space (slice_to line m)).
  set (idx := if r =? -1 then m else r).
  assert (Hidx : 0 <= idx <= m ∧
                 (List.length (strip (slice_from line idx)) < List.length line)%nat).
  { pose proof (slice_to_length line m ltac:(lia)) as Hlen.
    unfold idx. destruct (rfind_spec space (slice_to line m)) as [[Hr _]|[Hr Hl]];
      fold r in Hr; [rewrite Hr | ].
    - simpl. split; [lia|]. pose proof (strip_length (slice_from line m)).
      pose proof (slice_from_length line m ltac:(lia)). lia.
    - destruct (Z.eqb_spec r (-1)); [lia|]. split; [lia|].
      destruct (Z.eq_dec r 0) as [Hr0|Hr0].
      + destruct (split_at_space line m ltac:(lia) Hr0) as [line' ->].
        rewrite Hr0, slice_from_0.
        pose proof (strip_length_space space line' eq_refl). simpl. lia.
      + pose proof (strip_length (slice_from line r)).
        pose proof (slice_from_length line r ltac:(lia)). lia. }
  destruct Hidx as [Hidx Hless].
  destruct (IH (strip (slice_from line idx)) (lines ++ [slice_to line idx])
              ltac:(lia)) as (out & Hout & Hnarrow & Hone & Hne).
  exists out. split; [done|]. split; [|split; [|done]].
  - intros Hn. apply Hnarrow, Forall_app. split; [done|]. constructor; [|done].
    rewrite slice_to_length by lia. lia.
  - intros Ho Hl. apply Hone.
    + apply Forall_app. split; [done|]. constructor; [|done].
      intros Hin. apply Hl. unfold slice_to in Hin.
      by apply (subseteq_take (slice_index (List.length line) idx) line).
    + intros Hin. apply Hl. apply elem_of_strip in Hin. unfold slice_from in Hin.
      by apply (subseteq_drop (slice_index (List.length line) idx) line).
Qed.

Lemma all_ink_snoc lines line : all_ink (lines ++ [line]) = all_ink lines ++ ink line.
Proof. unfold all_ink. rewrite fmap_app, concat_app. simpl. by rewrite app_nil_r. Qed.

Lemma wrap_line_ink (m : Z) (fuel : nat) line lines out :
  wrap_line fuel m line lines = Some out →
  all_ink out = all_ink lines ++ ink line.
Proof.
  revert line lines. induction fuel as [|fuel IH]; intros line lines; simpl; [done|].
  destruct (m <? Z.of_nat (List.length line)).
  - intros Hout. rewrite (IH _ _ Hout), all_ink_snoc, ink_strip, <- app_assoc.
    by rewrite ink_slices.
  - intros [= <-]. apply all_ink_snoc.
Qed.

Lemma wrap_lines_ink (m : Z) (fuel : nat) (todo : list (list ascii)) lines out :
  wrap_lines fuel m todo lines = Some out →
  all_ink out = all_ink lines ++ all_ink todo.
Proof.
  revert lines. induction todo as [|line todo IH]; intros lines; simpl.
  - intros [= <-]. by rewrite app_nil_r.
  - destruct (wrap_line fuel m line lines) as [lines'|] eqn:Hl; [|done].
    intros Hout. rewrite (IH _ Hout), (wrap_line_ink _ _ _ _ _ Hl).
    by rewrite <- app_assoc.
Qed.

Lemma wrap_lines_ends (m : Z) (fuel : nat) (todo : list (list ascii)) lines :
  1 <= m → Forall (fun l => (List.length l < fuel)%nat) todo →
  ∃ out, wrap_lines fuel m todo lines = Some out ∧
         (narrow m lines → narrow m out) ∧
         (one_line lines → one_line todo → one_line out) ∧
         (todo ≠ [] → out ≠ []).
Proof.
  intros Hm Hfuel. revert lines.
  induction Hfuel as [|line todo Hline _ IH]; intros lines; simpl.
  - exists lines. by repeat split.
  - destruct (wrap_line_ends m fuel line lines Hm Hline)
      as (lines' & -> & Hnarrow & Hone & Hne).
    destruct (IH lines') as (out & Hout & Hnarrow' & Hone' & Hne').
    exists out. split; [done|]. split; [|split].
    + intros Hn. by apply Hnarrow', Hnarrow.
    + intros Ho Ht. apply Forall_cons in Ht as [Hl Ht]. apply Hone'; [|done].
      by apply Hone.
    + intros _. destruct todo as [|l todo'].
      * simpl in Hout. by injection Hout as <-.
      * by apply Hne'.
Qed.

Lemma wrap_line_short (m : Z) (fuel : nat) line lines :
  Z.of_nat (List.length line) <= m →
  wrap_line (S fuel) m line lines = Some (lines ++ [line]).
Proof.
  intros Hl. simpl.
  destruct (Z.ltb_spec m (Z.of_nat (List.length line))); [lia|done].
Qed.

Lemma wrap_lines_short (m : Z) (fuel : nat) (todo : list (list ascii)) lines :
  narrow m todo → wrap_lines (S fuel) m todo lines = Some (lines ++ todo).
Proof.
  intros Hn. revert lines. induction Hn as [|line todo Hl _ IH]; intros lines.
  - simpl. by rewrite app_nil_r.
  - cbn [wrap_lines]. rewrite wrap_line_short by done. rewrite IH.
    by rewrite <- app_assoc.
Qed.

Lemma split_pair_one_line text :
  (newline ∉ (split_pair text).1) ∧ one_line (split_pair text).2.
Proof.
  induction text as [|c text [IH1 IH2]]; simpl.
  - split; [by intros Hin; inversion Hin | constructor].
  - destruct (split_pair text) as [cur rest]. simpl in *. case_decide.
    + simpl. split; [by intros Hin; inversion Hin|]. by constructor.
    + simpl. split; [|done]. intros H'. apply list_elem_of_In in H'.
      destruct H' as [->|H']; [done|]. by apply IH1, list_elem_of_In.
Qed.

Lemma split_lines_one_line text : one_line (split_lines text).
Proof. destruct (split_pair_one_line text). by constructor. Qed.

Lemma join_split_lines text : join_lines (split_lines text) = text.
Proof.
  unfold split_lines. induction text as [|c text IH]; simpl; [done|].
  destruct (split_pair text) as [cur rest]. simpl in *.
  destruct (decide (c = newline)) as [->|Hc]; simpl.
  - by rewrite IH.
  - destruct rest; simpl in *; by rewrite <- IH.
Qed.

Lemma split_join_lines (line : list ascii) lines :
  one_line (line :: lines) → split_lines (join_lines (line :: lines)) = line :: lines.
Proof.
  revert line. induction lines as [|l lines IH]; intros line Ho.
  - apply Forall_cons in Ho as [Hl _]. simpl. unfold split_lines.
    induction line as [|c line IHl]; simpl; [done|].
    assert (c ≠ newline) by (intros ->; apply Hl; left).
    assert (newline ∉ line) by (intros Hin; apply Hl; by right).
    specialize (IHl ltac:(done)). destruct (split_pair line) as [cur rest].
    simpl in *. destruct (decide (c = newline)); [done|]. simpl.
    by injection IHl as -> ->.
  - apply Forall_cons in Ho as [Hl Ho]. specialize (IH l Ho).
    change (join_lines (line :: l :: lines))
      with (line ++ newline :: join_lines (l :: lines)).
    unfold split_lines in *.
    set (tail := join_lines (l :: lines)) in *. clearbody tail.
    induction line as [|c line IHl]; simpl.
    + destruct (split_pair tail) as [cur rest].
      simpl in *. destruct (decide (newline = newline)); [|done]. simpl. by rewrite IH.
    + assert (c ≠ newline) by (intros ->; apply Hl; left).
      assert (newline ∉ line) by (intros Hin; apply Hl; by right).
      specialize (IHl ltac:(done)).
      destruct (split_pair (line ++ newline :: tail)) as [cur rest].
      simpl in *. destruct (decide (c = newline)); [done|]. simpl.
      by injection IHl as -> ->.
Qed.

Lemma ink_join_lines lines : ink (join_lines lines) = all_ink lines.
Proof.
  induction lines as [|line lines IH]; [done|].
  destruct lines as [|l lines].
  - simpl. unfold all_ink. simpl. by rewrite app_nil_r.
  - change (join_lines (line :: l :: lines))
      with (line ++ newline :: join_lines (l :: lines)).
    change (all_ink (line :: l :: lines)) with (ink line ++ all_ink (l :: lines)).
    rewrite <- IH. unfold ink. by rewrite filter_app, filter_cons_False.
Qed.

Lemma split_lines_short text :
  Forall (fun l => (List.length l ≤ List.length text)%nat) (split_lines text).
Proof.
  unfold split_lines. induction text as [|c text IH]; simpl.
  - by repeat constructor.
  - destruct (split_pair text) as [cur rest]. simpl in *.
    apply Forall_cons in IH as [IH1 IH2]. case_decide; simpl.
    + constructor; [simpl; lia|]. constructor; [lia|].
      eapply Forall_impl; [exact IH2|]. simpl. intros; lia.
    + constructor; [simpl; lia|].
      eapply Forall_impl; [exact IH2|]. simpl. intros; lia.
Qed.

Lemma length_list_ascii_of_string (text : string) :
  List.length (list_ascii_of_string text) = String.length text.
Proof. induction text; simpl; congruence. Qed.

(** X20.  For a width of at least one character the wrapping ends, and every
    line of the text it returns is at most that wide. *)
Theorem wrap_text_width (text : string) (max_chars : Z) (fuel : nat) :
  1 <= max_chars →
  (String.length text < fuel)%nat →
  ∃ out, wrap_text fuel text max_chars = Some out ∧
         Forall (fun line => Z.of_nat (List.length line) <= max_chars)
           (split_lines (list_ascii_of_string out)).
Proof.
  intros Hm Hfuel. unfold wrap_text.
  destruct (wrap_lines_ends max_chars fuel
              (split_lines (list_ascii_of_string text)) [] Hm)
    as (out & -> & Hnarrow & Hone & Hne).
  { eapply Forall_impl; [apply split_lines_short|]. simpl. intros l Hl.
    rewrite length_list_ascii_of_string in Hl. lia. }
  eexists. split; [done|]. rewrite list_ascii_of_string_of_list_ascii.
  destruct out as [|line out]; [by destruct Hne|].
  rewrite split_join_lines.
  - apply Hnarrow. constructor.
  - apply Hone; [constructor | apply split_lines_one_line].
Qed.

Lemma wrap_text_width_witness :
  1 <= 18 ∧ (String.length "Issued: Python Basics" < 30)%nat ∧
  ∃ out, wrap_text 30 "Issued: Python Basics" 18 = Some out ∧
         Forall (fun line => Z.of_nat (List.length line) <= 18)
           (split_lines (list_ascii_of_string out)).
Proof.
  split; [lia|]. split; [simpl; lia|].
  apply (wrap_text_width "Issued: Python Basics" 18 30); [lia | simpl; lia].
Defined.

(** X21.  Wrapping loses nothing but white space: the characters of the result
    that are not white space are those of the text, in the same order. *)
Theorem wrap_text_keeps_ink (text out : string) (max_chars : Z) (fuel : nat) :
  wrap_text fuel text max_chars = Some out →
  ink (list_ascii_of_string out) = ink (list_ascii_of_string text).
Proof.
  unfold wrap_text.
  destruct (wrap_lines fuel max_chars (split_lines (list_ascii_of_string text)) [])
    as [lines|] eqn:Hl; [|done].
  intros [= <-]. rewrite list_ascii_of_string_of_list_ascii, ink_join_lines.
  rewrite (wrap_lines_ink _ _ _ _ _ Hl). simpl.
  by rewrite <- ink_join_lines, join_split_lines.
Qed.

Lemma wrap_text_keeps_ink_witness :
  wrap_text 9 "No copies left" 6
  = Some (String.append "No" (String newline (String.append "copies" (String newline "left")))) ∧
  ink (list_ascii_of_string
         (String.append "No" (String newline (String.append "copies" (String newline "left")))))
  = ink (list_ascii_of_string "No copies left").
Proof.
  assert (H : wrap_text 9 "No copies left" 6
              = Some (String.append "No"
                        (String newline (String.append "copies" (String newline "left")))))
    by (vm_compute; reflexivity).
  split; [exact H|]. exact (wrap_text_keeps_ink _ _ _ _ H).
Defined.

(** X22.  A text whose lines already fit is returned as it is. *)
Theorem wrap_text_fits (text : string) (max_chars : Z) (fuel : nat) :
  Forall (fun line => Z.of_nat (List.length line) <= max_chars)
    (split_lines (list_ascii_of_string text)) →
  wrap_text (S fuel) text max_chars = Some text.
Proof.
  intros Hfit. unfold wrap_text. rewrite wrap_lines_short by done.
  cbv beta iota. by rewrite app_nil_l, join_split_lines, string_of_list_ascii_of_string.
Qed.

Lemma wrap_text_fits_witness :
  wrap_text 1 (String.append "No copies left" (String newline "for this book.")) 18
  = Some (String.append "No copies left" (String newline "for this book.")).
Proof.
  apply (wrap_text_fits _ 18 0). vm_compute. repeat constructor; discriminate.
Defined.

Lemma wrap_line_zero_width (fuel : nat) line lines :
  ink line ≠ [] → wrap_line fuel 0 line lines = None.
Proof.
  revert line lines. induction fuel as [|fuel IH]; intros line lines Hink; [done|].
  simpl. destruct (Z.ltb_spec 0 (Z.of_nat (List.length line))) as [_|Hlen].
  - rewrite slice_to_0. simpl. rewrite slice_from_0. apply IH. by rewrite ink_strip.
  - destruct line; [done|]. simpl in Hlen. lia.
Qed.

(** X23.  With a width of 0 the wrapping never ends as soon as the text has a
    line that is not blank: no number of passes of the inner loop is
    enough. *)
Theorem wrap_text_zero_width (text : string) (fuel : nat) :
  ink (list_ascii_of_string text) ≠ [] →
  wrap_text fuel text 0 = None.
Proof.
  intros Hink. unfold wrap_text.
  rewrite <- (join_split_lines (list_ascii_of_string text)), ink_join_lines in Hink.
  generalize (@nil (list ascii)).
  induction (split_lines (list_ascii_of_string text)) as [|line todo IH];
    intros lines; [done|].
  simpl. destruct (decide (ink line = [])) as [Hblank|Hline].
  - destruct (wrap_line fuel 0 line lines) as [lines'|]; [|done].
    unfold all_ink in Hink. simpl in Hink. rewrite Hblank in Hink.
    specialize (IH Hink lines').
    by destruct (wrap_lines fuel 0 todo lines').
  - by rewrite wrap_line_zero_width.
Qed.

Lemma wrap_text_zero_width_witness :
  ink (list_ascii_of_string "  a") ≠ [] ∧ wrap_text 1000 "  a" 0 = None.
Proof.
  split; [vm_compute; discriminate|].
  apply (wrap_text_zero_width "  a" 1000). vm_compute. discriminate.
Defined.

End WrapText.

(** ** The payment code *)

Section PaymentCode.

Example payment_url_example :
  payment_url 30 = "upi://pay?pa=library@upi&pn=Smart Library&am=30&cu=INR&tn=Book Fine".
Proof. vm_compute. reflexivity. Qed.

Example render_matrix_example :
  let m := BitMatrix 2 2 (fun x y => bool_decide (x = y)) in
  match render_matrix m with
  | Some bm => b_width bm = 24 ∧ pixel bm 8 8 = 1 ∧ pixel bm 11 11 = 1 ∧
               pixel bm 12 8 = 0 ∧ pixel bm 15 15 = 1 ∧ pixel bm 7 7 = 0
  | None => False
  end.
Proof. vm_compute. repeat split. Qed.

Lemma painted_nothing (Q : Z → Z → Prop) (bm : bitmap) :
  (∀ px py, ¬ Q px py) → painted Q bm bm.
Proof.
  intros HQ. split; [done|]. split; [done|]. split; [done|].
  intros px py. specialize (HQ px py). tauto.
Qed.

Lemma painted_more (Q1 Q2 Q : Z → Z → Prop) (bm0 bm1 bm2 : bitmap) :
  painted Q1 bm0 bm1 → painted Q2 bm1 bm2 →
  (∀ px py, Q px py ↔ Q1 px py ∨ Q2 px py) →
  painted Q bm0 bm2.
Proof.
  intros (Hw1 & Hh1 & Hb1 & H1) (Hw2 & Hh2 & Hb2 & H2) HQ.
  split; [congruence|]. split; [congruence|]. split; [tauto|].
  intros px py. rewrite H2, H1, HQ. tauto.
Qed.

Lemma set_pixel_painted (x y : Z) (bm : bitmap) :
  0 <= x < b_width bm → 0 <= y < b_height bm →
  ∃ bm', set_pixel x y 1 bm = Some bm' ∧
         painted (fun px py => px = x ∧ py = y) bm bm'.
Proof.
  intros Hx Hy. unfold set_pixel.
  destruct (Z.leb_spec 0 x); [|lia]. destruct (Z.ltb_spec x (b_width bm)); [|lia].
  destruct (Z.leb_spec 0 y); [|lia]. destruct (Z.ltb_spec y (b_height bm)); [|lia].
  simpl. eexists. split; [done|]. split; [done|]. split; [done|].
  unfold binary, pixel. simpl. split.
  - intros Hb px py. destruct (decide ((x, y) = (px, py))) as [<-|Hne].
    + rewrite lookup_insert_eq. by right.
    + rewrite lookup_insert_ne by done. apply Hb.
  - intros px py. destruct (decide ((x, y) = (px, py))) as [[= <- <-]|Hne].
    + rewrite lookup_insert_eq. simpl. tauto.
    + rewrite lookup_insert_ne by done. split; [tauto|].
      intros [[-> ->]|H']; [done|done].
Qed.

Lemma for_range_snoc {A : Type} (n : Z) (body : Z → A → option A) (a : A) :
  0 <= n → for_range (n + 1) body a = for_range n body a ≫= body n.
Proof.
  intros Hn. unfold for_range. rewrite seqZ_app by lia. rewrite foldl_app.
  rewrite (seqZ_cons (0 + n) 1) by lia.
  rewrite (seqZ_nil (Z.succ (0 + n)) (Z.pred 1)) by lia. done.
Qed.

(** A loop over [range(n)] whose passes each paint their own region paints
    the union of the regions. *)
Lemma for_range_painted (n : Z) (body : Z → bitmap → option bitmap)
    (R : Z → Z → Z → Prop) (bm0 : bitmap) :
  0 <= n →
  (∀ i bm, 0 <= i < n →
     b_width bm = b_width bm0 → b_height bm = b_height bm0 →
     ∃ bm', body i bm = Some bm' ∧ painted (R i) bm bm') →
  ∃ bm, for_range n body bm0 = Some bm ∧
        painted (fun px py => ∃ i, 0 <= i < n ∧ R i px py) bm0 bm.
Proof.
  intros Hn. pattern n. apply natlike_ind; [| |done].
  - intros _. exists bm0. split; [done|]. apply painted_nothing.
    intros px py (i & Hi & _). lia.
  - intros k Hk IH Hbody.
    destruct IH as (bm & Hfor & Hp).
    { intros i bm' Hi. apply Hbody. lia. }
    destruct (Hbody k bm ltac:(lia) (proj1 Hp) (proj1 (proj2 Hp)))
      as (bm' & Hbm' & Hp').
    exists bm'. split.
    + unfold Z.succ. by rewrite for_range_snoc, Hfor.
    + eapply painted_more; [exact Hp | exact Hp' |].
      intros px py. split.
      * intros (i & Hi & HR). destruct (decide (i = k)) as [->|Hne]; [by right|].
        left. exists i. split; [lia|done].
      * intros [(i & Hi & HR)|HR]; [exists i | exists k]; split; (lia || done).
Qed.
Lemma painted_same (Q Q' : Z → Z → Prop) (bm0 bm : bitmap) :
  painted Q bm0 bm → (∀ px py, Q px py ↔ Q' px py) → painted Q' bm0 bm.
Proof.
  intros (Hw & Hh & Hb & Hpx) HQ. repeat split; try done.
  - intros H. apply Hpx in H. by rewrite <- HQ.
  - intros H. apply Hpx. by rewrite HQ.
Qed.

(** The two inner loops paint the block of one module. *)
Lemma paint_block (x y : Z) (bm : bitmap) :
  0 <= x * 4 + 2 * 4 → x * 4 + 2 * 4 + 4 <= b_width bm →
  0 <= y * 4 + 2 * 4 → y * 4 + 2 * 4 + 4 <= b_height bm →
  ∃ bm', for_range 4 (fun i =>
           for_range 4 (fun j =>
             set_pixel (x * 4 + 2 * 4 + i) (y * 4 + 2 * 4 + j) 1)) bm = Some bm' ∧
         painted (fun px py => x * 4 + 8 <= px < x * 4 + 12 ∧
                               y * 4 + 8 <= py < y * 4 + 12) bm bm'.
Proof.
  intros Hx0 Hx1 Hy0 Hy1.
  destruct (for_range_painted 4
              (fun i => for_range 4 (fun j =>
                 set_pixel (x * 4 + 2 * 4 + i) (y * 4 + 2 * 4 + j) 1))
              (fun i px py => px = x * 4 + 2 * 4 + i ∧
                              ∃ j, 0 <= j < 4 ∧ py = y * 4 + 2 * 4 + j)
              bm ltac:(lia)) as (bm' & Hfor & Hp).
  { intros i bmi Hi Hwi Hhi.
    destruct (for_range_painted 4
                (fun j => set_pixel (x * 4 + 2 * 4 + i) (y * 4 + 2 * 4 + j) 1)
                (fun j px py => px = x * 4 + 2 * 4 + i ∧ py = y * 4 + 2 * 4 + j)
                bmi ltac:(lia)) as (bmj & Hforj & Hpj).
    { intros j bmj Hj Hwj Hhj. apply set_pixel_painted; lia. }
    exists bmj. split; [done|]. eapply painted_same; [exact Hpj|].
    intros px py. split.
    - intros (j & Hj & -> & ->). eauto.
    - intros (-> & j & Hj & ->). eauto. }
  exists bm'. split; [done|]. eapply painted_same; [exact Hp|].
  intros px py. split.
  - intros (i & Hi & -> & j & Hj & ->). lia.
  - intros [Hpx Hpy]. exists (px - (x * 4 + 8)). split; [lia|]. split; [lia|].
    exists (py - (y * 4 + 8)). lia.
Qed.

(** What the four loops of the drawing leave in the bitmap. *)
Lemma render_matrix_drawn (matrix : bit_matrix) :
  0 <= m_width matrix →
  0 <= m_height matrix <= m_width matrix + 2 →
  ∃ bm, render_matrix matrix = Some bm ∧
        b_width bm = (m_width matrix + 4) * 4 ∧
        b_height bm = (m_width matrix + 4) * 4 ∧
        ∀ px py,
          (8 <= px < 8 + 4 * m_width matrix ∧ 8 <= py < 8 + 4 * m_height matrix ∧
           m_bit matrix ((px - 8) / 4) ((py - 8) / 4) = true →
           pixel bm px py = 1) ∧
          (¬ (8 <= px < 8 + 4 * m_width matrix ∧ 8 <= py < 8 + 4 * m_height matrix ∧
              m_bit matrix ((px - 8) / 4) ((py - 8) / 4) = true) →
           pixel bm px py = 0).
Proof.
  intros Hw Hh. unfold render_matrix. cbv zeta.
  set (bm0 := Bitmap ((m_width matrix + 2 * 2) * 4) ((m_width matrix + 2 * 2) * 4) ∅).
  destruct (for_range_painted (m_width matrix)
              (fun x => for_range (m_height matrix) (fun y bm =>
                 if m_bit matrix x y then
                   for_range 4 (fun i => for_range 4 (fun j =>
                     set_pixel (x * 4 + 2 * 4 + i) (y * 4 + 2 * 4 + j) 1)) bm
                 else Some bm))
              (fun x px py => ∃ y, 0 <= y < m_height matrix ∧
                 m_bit matrix x y = true ∧
                 x * 4 + 8 <= px < x * 4 + 12 ∧ y * 4 + 8 <= py < y * 4 + 12)
              bm0 Hw) as (bm & Hfor & Hp).
  { intros x bmx Hx Hwx Hhx.
    apply (for_range_painted (m_height matrix)
             (fun y bm =>
                if m_bit matrix x y then
                  for_range 4 (fun i => for_range 4 (fun j =>
                    set_pixel (x * 4 + 2 * 4 + i) (y * 4 + 2 * 4 + j) 1)) bm
                else Some bm)
             (fun y px py => m_bit matrix x y = true ∧
                x * 4 + 8 <= px < x * 4 + 12 ∧ y * 4 + 8 <= py < y * 4 + 12)
             bmx ltac:(lia)).
    intros y bmy Hy Hwy Hhy. destruct (m_bit matrix x y) eqn:Hbit.
    - destruct (paint_block x y bmy) as (bm' & Hb & Hp);
        [rewrite ?Hwy, ?Hhy, ?Hwx, ?Hhx; simpl; lia..|].
      exists bm'. split; [done|]. eapply painted_same; [exact Hp|].
      intros px py. tauto.
    - exists bmy. split; [done|]. apply painted_nothing. by intros px py [? _]. }
  exists bm. split; [done|].
  destruct Hp as (Hwb & Hhb & Hbin & Hpx).
  split; [rewrite Hwb; simpl; lia|]. split; [rewrite Hhb; simpl; lia|].
  assert (Hbm : binary bm) by (apply Hbin; intros px py; by left).
  assert (Hone : ∀ px py, pixel bm px py = 1 ↔
            8 <= px < 8 + 4 * m_width matrix ∧ 8 <= py < 8 + 4 * m_height matrix ∧
            m_bit matrix ((px - 8) / 4) ((py - 8) / 4) = true).
  { intros px py. rewrite Hpx. split.
    - intros [(x & Hx & y & Hy & Hbit & Hxx & Hyy)|H0]; [|done].
      assert ((px - 8) / 4 = x) as ->
        by (symmetry; apply (Z.div_unique _ _ _ (px - 8 - 4 * x)); lia).
      assert ((py - 8) / 4 = y) as ->
        by (symmetry; apply (Z.div_unique _ _ _ (py - 8 - 4 * y)); lia).
      repeat split; (lia || done).
    - intros (Hxx & Hyy & Hbit). left.
      pose proof (Z.div_mod (px - 8) 4 ltac:(lia)).
      pose proof (Z.mod_pos_bound (px - 8) 4 ltac:(lia)).
      pose proof (Z.div_mod (py - 8) 4 ltac:(lia)).
      pose proof (Z.mod_pos_bound (py - 8) 4 ltac:(lia)).
      exists ((px - 8) / 4). split; [lia|].
      exists ((py - 8) / 4). split; [lia|]. split; [done|]. lia. }
  intros px py. split; [by intros ?%Hone|].
  intros Hnot. destruct (Hbm px py) as [H0|H1]; [done|]. by apply Hone in H1.
Qed.

(** X24.  The payment code as a picture.  For a matrix no taller than its width
    plus two, the drawing goes through; the bitmap is a square of
    (width + 4) * 4 pixels; and a pixel is 1 exactly when it lies, 8 pixels
    in from the left and the top, in the 4 by 4 block of a set module, and 0
    otherwise, so that the two modules of border stay blank. *)
Theorem render_matrix_pixels (matrix : bit_matrix) :
  0 <= m_width matrix →
  0 <= m_height matrix <= m_width matrix + 2 →
  ∃ bm, render_matrix matrix = Some bm ∧
        b_width bm = (m_width matrix + 4) * 4 ∧
        b_height bm = (m_width matrix + 4) * 4 ∧
        ∀ px py,
          (8 <= px < 8 + 4 * m_width matrix ∧ 8 <= py < 8 + 4 * m_height matrix ∧
           m_bit matrix ((px - 8) / 4) ((py - 8) / 4) = true →
           pixel bm px py = 1) ∧
          (¬ (8 <= px < 8 + 4 * m_width matrix ∧ 8 <= py < 8 + 4 * m_height matrix ∧
              m_bit matrix ((px - 8) / 4) ((py - 8) / 4) = true) →
           pixel bm px py = 0).
Proof. apply render_matrix_drawn. Qed.

Lemma render_matrix_pixels_witness :
  let m := BitMatrix 3 3 (fun x y => bool_decide (x = y)) in
  0 <= m_width m ∧ 0 <= m_height m <= m_width m + 2 ∧
  ∃ bm, render_matrix m = Some bm ∧
        b_width bm = (m_width m + 4) * 4 ∧
        b_height bm = (m_width m + 4) * 4 ∧
        ∀ px py,
          (8 <= px < 8 + 4 * m_width m ∧ 8 <= py < 8 + 4 * m_height m ∧
           m_bit m ((px - 8) / 4) ((py - 8) / 4) = true →
           pixel bm px py = 1) ∧
          (¬ (8 <= px < 8 + 4 * m_width m ∧ 8 <= py < 8 + 4 * m_height m ∧
              m_bit m ((px - 8) / 4) ((py - 8) / 4) = true) →
           pixel bm px py = 0).
Proof.
  split; [simpl; lia|]. split; [simpl; lia|].
  apply (render_matrix_pixels (BitMatrix 3 3 (fun x y => bool_decide (x = y))));
    simpl; lia.
Defined.

(** X25.  The tile is centred: whatever the library's matrix, as long as it is
    no taller than its width plus two, [generate_qr] returns a tile 40
    pixels down whose left and right margins on the 240 pixel screen are
    equal. *)
Theorem generate_qr_centred (make_matrix : string → bit_matrix) (fine : Z) :
  0 <= m_width (make_matrix (payment_url fine)) →
  0 <= m_height (make_matrix (payment_url fine))
    <= m_width (make_matrix (payment_url fine)) + 2 →
  ∃ t, generate_qr make_matrix fine = Some t ∧
       render_matrix (make_matrix (payment_url fine)) = Some (tile_bitmap t) ∧
       tile_y t = 40 ∧
       tile_x t + b_width (tile_bitmap t) + tile_x t = 240.
Proof.
  intros Hw Hh. unfold generate_qr.
  destruct (render_matrix_drawn _ Hw Hh) as (bm & -> & Hbw & _).
  eexists. split; [done|]. simpl. split; [done|]. split; [done|].
  rewrite Hbw.
  replace (240 - (m_width (make_matrix (payment_url fine)) + 4) * 4)
    with ((120 - (m_width (make_matrix (payment_url fine)) + 4) * 2) * 2) by lia.
  rewrite Z.div_mul by done. lia.
Qed.

Lemma generate_qr_centred_witness :
  let make_matrix := fun _ : string => BitMatrix 37 37 (fun x y => Z.even (x + y)) in
  ∃ t, generate_qr make_matrix 30 = Some t ∧
       render_matrix (make_matrix (payment_url 30)) = Some (tile_bitmap t) ∧
       tile_y t = 40 ∧
       tile_x t + b_width (tile_bitmap t) + tile_x t = 240.
Proof.
  apply (generate_qr_centred (fun _ => BitMatrix 37 37 (fun x y => Z.even (x + y))) 30);
    simpl; lia.
Defined.

Lemma list_ascii_of_string_app (s t : string) :
  list_ascii_of_string (s +:+ t) = list_ascii_of_string s ++ list_ascii_of_string t.
Proof. induction s as [|c s IH]; simpl; [done|]. by rewrite IH. Qed.

Lemma append_inj_r (s1 s2 t : string) : s1 +:+ t = s2 +:+ t → s1 = s2.
Proof.
  intros H. apply (f_equal list_ascii_of_string) in H.
  rewrite !list_ascii_of_string_app in H. apply app_inv_tail in H.
  apply (f_equal string_of_list_ascii) in H.
  by rewrite !string_of_list_ascii_of_string in H.
Qed.

Lemma to_int_proper (z : Z) : Z.to_int z ≠ Decimal.Pos Decimal.Nil ∧
                              Z.to_int z ≠ Decimal.Neg Decimal.Nil.
Proof.
  destruct z as [|p|p]; simpl; split; try discriminate;
    intros [= H]; by apply (DecimalPos.Unsigned.to_uint_nonnil p).
Qed.

(** X26.  The amount written into the payment URI reads back as the fine, and
    two fines never give the same URI. *)
Theorem payment_url_amount (fine : Z) :
  (∃ amount,
     payment_url fine
     = "upi://pay?pa=library@upi&pn=Smart Library&am=" +:+ amount
       +:+ "&cu=INR&tn=Book Fine" ∧
     option_map Z.of_int (NilZero.int_of_string amount) = Some fine) ∧
  (∀ fine', payment_url fine' = payment_url fine → fine' = fine).
Proof.
  assert (Hread : ∀ z, option_map Z.of_int
                         (NilZero.int_of_string (NilZero.string_of_int (Z.to_int z)))
                       = Some z).
  { intros z. destruct (to_int_proper z) as [Hp Hn].
    rewrite NilZero.isi by done. simpl. by rewrite DecimalZ.of_to. }
  split.
  - eexists. split; [reflexivity|]. apply Hread.
  - intros fine' Heq. unfold payment_url in Heq.
    apply (f_equal list_ascii_of_string) in Heq.
    rewrite !list_ascii_of_string_app in Heq.
    apply app_inv_head in Heq. apply (f_equal string_of_list_ascii) in Heq.
    rewrite <- !list_ascii_of_string_app in Heq.
    rewrite !string_of_list_ascii_of_string in Heq.
    apply append_inj_r in Heq.
    pose proof (Hread fine') as H'. rewrite Heq, Hread in H'. by injection H'.
Qed.

End PaymentCode.

(** ** The ID entry and the confirmation screen *)

Section Screens.

Implicit Types (s : session) (b : buttons) (hw : hardware).

Ltac split_conds :=
  repeat match goal with
         | |- context [if ?c then _ else _] => destruct c eqn:?; simpl
         end.

Ltac by_state s :=
  unfold tick;
  repeat match goal with
         | |- context [current_state s =? ?k] =>
           destruct (Z.eqb_spec (current_state s) k)
         end.

(** The cursor and digit lines of the ID entry touch only [id_pos] and the
    text of the ID labels. *)
Lemma id_inputs_frame b s :
  current_state (id_inputs b s) = current_state s ∧
  current_user (id_inputs b s) = current_user s ∧
  pin_digits (id_inputs b s) = pin_digits s ∧
  db (id_inputs b s) = db s.
Proof.
  destruct s as [st cu cf si ip pp mi bi ci tu cm idd pd qg d], b as [bu bd bo bl br].
  unfold id_inputs, when. simpl.
  repeat match goal with
         | |- context [if ?c then _ else _] => destruct c; simpl
         end; done.
Qed.

(** X15.  OK on the ID entry: when the digits spell a user of the user table,
    the PIN entry comes next for that user, with the PIN labels at zero and
    the cursor on the first, and nobody logged in yet; when they do not, the
    screen stays as the cursor and digit buttons of the pass left it. *)
Theorem id_confirm hw now b events s :
  current_state s = 3 →
  btn_ok b = true →
  let user_id := join_digits (id_digits (id_inputs b s)) in
  (is_Some (users_db (db s) !! user_id) →
   ∃ s', tick hw now b events s = Next s' ∧
         current_state s' = 4 ∧ temp_user_id s' = Some user_id ∧
         pin_digits s' = replicate (List.length (pin_digits s)) 0 ∧
         pin_pos s' = 0 ∧ current_user s' = current_user s ∧
         id_digits s' = id_digits (id_inputs b s)) ∧
  (users_db (db s) !! user_id = None →
   tick hw now b events s = Next (id_inputs b s)).
Proof.
  intros Hst Hok user_id.
  destruct (id_inputs_frame b s) as (Hst1 & Hcu1 & Hpd1 & Hdb1).
  unfold tick. rewrite Hst. simpl. unfold tick_id. rewrite Hok, Hdb1.
  fold user_id. split.
  - intros [usr ->]. eexists. split; [reflexivity|].
    rewrite <- Hpd1, <- zero_digits_replicate, <- Hcu1.
    by destruct (id_inputs b s).
  - by intros ->.
Qed.

Lemma id_confirm_witness :
  let s := set_id_digits [0; 1] initial_session in
  let b := pass_buttons press_ok in
  current_state s = 3 ∧ btn_ok b = true ∧
  ∃ s', tick (Hardware None None) 0 b [] s = Next s' ∧
        current_state s' = 4 ∧ temp_user_id s' = Some "01" ∧
        pin_digits s' = [0; 0; 0; 0] ∧ pin_pos s' = 0 ∧
        current_user s' = EmptyString ∧ id_digits s' = [0; 1].
Proof.
  split; [reflexivity|]. split; [reflexivity|].
  apply (id_confirm (Hardware None None) 0 (pass_buttons press_ok) []
           (set_id_digits [0; 1] initial_session) eq_refl eq_refl).
  eexists. vm_compute. reflexivity.
Defined.


End Screens.
